(** * Farmacia: the price consolidation engine

    A shallow embedding of [scripts/consolidar_visible.py] (the paged,
    dictionary-based consolidator), of the selection and statistics of
    [scripts/consolidar.py] (the pandas variant), of the match key of
    [scripts/consolidar_sql.py], of [col_letter] of
    [scripts/exportar_total_excel.py], and of the loop with which the
    scrapers store the hits of a page ([scrapers/atida.py],
    [scrapers/dosfarma.py], [scrapers/vazquez.py]) together with the query
    that hands the stored rows to the consolidator, with the properties of
    the specification and further properties of the code stated over them.

    Modelling conventions.
    - A Python [str] is a Rocq [string]; one [ascii] stands for one code
      point below 256 (the Latin-1 range), so [String.length] is Python's
      [len].  Code points above 255 are outside the model; there NFKD can
      turn a sign that is not alphanumeric into letters, so what is stated
      about [clean_name] is stated on the characters left by its first
      step, the NFKD form encoded to ASCII.
    - A price, a [DECIMAL(10,2)] column converted with [float(...)], is an
      integer number of cents in [Z]; the conversion is monotone and
      injective on two-decimal values, so comparisons are those of the
      cents, and [round(max - min, 2)] is the difference of the cents.
    - A nullable column is an [option]; [en_stock] is read as a [bool].
    - A [dict] is a stdpp [gmap]; [defaultdict] access is a lookup with a
      default followed by an insert.  The groups are distinct objects, one
      for each key, so updating one in place is an insert at its key.
    - Iterating over a [dict] visits [map_to_list]; the insertion order
      Python keeps only decides the relative order of rows with equal
      savings in the sorted table, about which nothing is stated.
    - Both sorts ([list.sort] and [DataFrame.sort_values]) are stdpp's
      [merge_sort] for the order of their keys.  The sorts of Python and
      pandas are stable; the order [merge_sort] leaves among rows with
      equal keys is another one, and nothing is stated about which of
      several tying rows comes first. *)

From Stdlib Require Import ZArith NArith Ascii String List Sorting.Permutation.
From stdpp Require Import base decidable option list gmap strings pretty fin_maps
  sorting.

Local Open Scope string_scope.
Local Open Scope Z_scope.
Local Open Scope list_scope.

(** * The program *)

(** ** Python text primitives on the Latin-1 range *)

Module Texto.

Definition code (c : ascii) : N := N_of_ascii c.

Definition entre (a b n : N) : bool := ((a <=? n) && (n <=? b))%N.

(** [str.isspace] for one character. *)
Definition isspace (c : ascii) : bool :=
  let n := code c in
  entre 9 13 n || entre 28 32 n || (n =? 133)%N || (n =? 160)%N.

(** [str.isdigit] for one character: the ASCII digits and the
    superscripts U+00B2, U+00B3, U+00B9. *)
Definition isdigit (c : ascii) : bool :=
  let n := code c in
  entre 48 57 n || entre 178 179 n || (n =? 185)%N.

(** The ASCII decimal digits only. *)
Definition isdecimal_ascii (c : ascii) : bool := entre 48 57 (code c).

(** [str.isalnum] for one character. *)
Definition isalnum (c : ascii) : bool :=
  let n := code c in
  entre 48 57 n || entre 65 90 n || entre 97 122 n
  || (n =? 170)%N || entre 178 179 n || (n =? 181)%N || entre 185 186 n
  || entre 188 190 n || entre 192 214 n || entre 216 246 n
  || entre 248 255 n.

(** [str.lower] for one character. *)
Definition lower (c : ascii) : ascii :=
  let n := code c in
  if entre 65 90 n || entre 192 214 n || entre 216 222 n
  then ascii_of_N (n + 32) else c.

Definition chars (s : string) : list ascii := list_ascii_of_string s.

(** [unicodedata.normalize('NFKD', c).encode('ASCII', 'ignore')] for one
    character: the ASCII part of its compatibility decomposition. *)
Definition nfkd_ascii (c : ascii) : list ascii :=
  let n := code c in
  if (n <? 128)%N then [c]
  else if (n =? 160)%N || (n =? 168)%N || (n =? 175)%N || (n =? 180)%N
          || (n =? 184)%N then chars " "
  else if (n =? 170)%N || entre 224 229 n then chars "a"
  else if (n =? 178)%N then chars "2"
  else if (n =? 179)%N then chars "3"
  else if (n =? 185)%N then chars "1"
  else if (n =? 186)%N || entre 242 246 n then chars "o"
  else if (n =? 188)%N then chars "14"
  else if (n =? 189)%N then chars "12"
  else if (n =? 190)%N then chars "34"
  else if entre 192 197 n then chars "A"
  else if (n =? 199)%N then chars "C"
  else if entre 200 203 n then chars "E"
  else if entre 204 207 n then chars "I"
  else if (n =? 209)%N then chars "N"
  else if entre 210 214 n then chars "O"
  else if entre 217 220 n then chars "U"
  else if (n =? 221)%N then chars "Y"
  else if (n =? 231)%N then chars "c"
  else if entre 232 235 n then chars "e"
  else if entre 236 239 n then chars "i"
  else if (n =? 241)%N then chars "n"
  else if entre 249 252 n then chars "u"
  else if (n =? 253)%N || (n =? 255)%N then chars "y"
  else [].

Fixpoint lstrip (l : list ascii) : list ascii :=
  match l with
  | [] => []
  | c :: l' => if isspace c then lstrip l' else l
  end.

(** [str.strip()] with no argument. *)
Definition strip (l : list ascii) : list ascii :=
  rev (lstrip (rev (lstrip l))).

(** [str.split()] with no argument: the maximal runs of characters that
    are not whitespace; [cur] is the run being read, reversed. *)
Fixpoint split_go (cur : list ascii) (l : list ascii) : list (list ascii) :=
  match l with
  | [] => match cur with [] => [] | _ => [rev cur] end
  | c :: l' =>
      if isspace c
      then match cur with
           | [] => split_go [] l'
           | _ => rev cur :: split_go [] l'
           end
      else split_go (c :: cur) l'
  end.

Definition split (l : list ascii) : list (list ascii) := split_go [] l.

(** [sep.join(parts)]. *)
Fixpoint join (sep : list ascii) (parts : list (list ascii)) : list ascii :=
  match parts with
  | [] => []
  | [p] => p
  | p :: ps => p ++ sep ++ join sep ps
  end.

(** [s.isdigit()]: every character is a digit and there is at least one. *)
Definition str_isdigit (l : list ascii) : bool :=
  match l with
  | [] => false
  | _ => forallb isdigit l
  end.

End Texto.

(** ** Normalisation and EAN validation ([consolidar_visible.py], l. 12-21) *)

(** [clean_name] applied to a [str] of code points below 256; the
    [isinstance] guard is the type. *)
Definition clean_name (name : string) : string :=
  let n := map Texto.lower (concat (map Texto.nfkd_ascii (Texto.chars name))) in
  let sp := " "%char in
  string_of_list_ascii
    (Texto.join [sp]
       (Texto.split
          (map (fun c => if Texto.isalnum c || Texto.isspace c then c else sp) n))).

(** [is_valid_ean]: [None] is a value that is not a [str]. *)
Definition is_valid_ean (ean : option string) : bool :=
  match ean with
  | None => false
  | Some e =>
      let ean := Texto.strip (Texto.chars e) in
      Texto.str_isdigit ean
      && ((7 <=? length ean)%nat && (length ean <=? 14)%nat)
  end.

(** [str(ean)]. *)
Definition str_of (ean : option string) : string :=
  match ean with
  | Some e => e
  | None => "None"
  end.

(** The match key of a record and the flag [es_ean]
    ([consolidar_visible.py], l. 94-100). *)
Definition match_key_of (ean : option string) (nombre : string) : string * bool :=
  if is_valid_ean ean
  then (str_of ean, true)
  else (("NAME_" ++ clean_name nombre)%string, false).

(** ** The aggregator ([consolidar_visible.py], l. 52-122) *)

(** One row of the paged query: [p.id, p.farmacia, p.nombre, p.url, p.ean,
    pr.precio, pr.en_stock]. *)
Record row := Row {
  p_id : Z;
  farmacia : string;
  nombre : string;
  url : string;
  ean : option string;
  precio : option Z;
  en_stock : bool
}.

(** The value the [defaultdict] holds for a match key. *)
Record grupo := Grupo {
  nombre_ref : string;
  ean_ref : string;
  precios : gmap string Z;
  urls : gmap string string;
  stocks : gmap string bool
}.

(** The match key of a row. *)
Definition clave (r : row) : string := (match_key_of (ean r) (nombre r)).1.

Definition grupo_nuevo : grupo :=
  {| nombre_ref := ""; ean_ref := ""; precios := ∅; urls := ∅; stocks := ∅ |}.

Definition farmacias_conocidas : list string :=
  ["DosFarma"; "FarmaciasDirect"; "PromoFarma"; "Atida"; "FarmaciasVazquez"].

(** [grupos[match_key]] read on the [defaultdict]. *)
Definition obtener (grupos : gmap string grupo) (match_key : string) : grupo :=
  default grupo_nuevo (grupos !! match_key).

(** Lines 103-104: the reference name. *)
Definition guardar_nombre (nombre : string) (g : grupo) : grupo :=
  if bool_decide (nombre_ref g = "")
     || (String.length (nombre_ref g) <? String.length nombre)%nat
  then {| nombre_ref := nombre; ean_ref := ean_ref g; precios := precios g;
          urls := urls g; stocks := stocks g |}
  else g.

(** Lines 105-106: the reference EAN; under [es_ean] the EAN is a [str]. *)
Definition guardar_ean (es_ean : bool) (ean : option string) (g : grupo) : grupo :=
  if es_ean
  then {| nombre_ref := nombre_ref g; ean_ref := str_of ean; precios := precios g;
          urls := urls g; stocks := stocks g |}
  else g.

(** Lines 109-116: the entry of the row's pharmacy. *)
Definition guardar_farmacia (r : row) (g : grupo) : grupo :=
  if bool_decide (farmacia r ∈ farmacias_conocidas)
  then
    let precio_actual := precios g !! farmacia r in
    match precio r with
    | Some p =>
        if match precio_actual with
           | None => true
           | Some pa => en_stock r && (p <? pa)%Z
           end
        then {| nombre_ref := nombre_ref g; ean_ref := ean_ref g;
                precios := <[farmacia r := p]> (precios g);
                urls := <[farmacia r := url r]> (urls g);
                stocks := <[farmacia r := en_stock r]> (stocks g) |}
        else g
    | None => g
    end
  else g.

(** The body of [for row in rows] (l. 92-116). *)
Definition procesar_row (grupos : gmap string grupo) (r : row) : gmap string grupo :=
  let '(match_key, es_ean) := match_key_of (ean r) (nombre r) in
  <[match_key :=
      guardar_farmacia r
        (guardar_ean es_ean (ean r)
           (guardar_nombre (nombre r) (obtener grupos match_key)))]> grupos.

Definition procesar_rows (grupos : gmap string grupo) (rows : list row)
  : gmap string grupo :=
  foldl procesar_row grupos rows.

(** What a group holds for a pharmacy: price, URL and stock flag. *)
Definition entrada_grupo (g : grupo) (f : string)
  : option Z * option string * option bool :=
  (precios g !! f, urls g !! f, stocks g !! f).

(** What the aggregator holds for a match key and a pharmacy:
    price, URL and stock flag. *)
Definition entrada (grupos : gmap string grupo) (k f : string)
  : option Z * option string * option bool :=
  let g := obtener grupos k in (precios g !! f, urls g !! f, stocks g !! f).

(** ** The paged driver ([consolidar_visible.py], l. 81-122) *)

(** [con.execute(query, {"limit": ..., "offset": ...}).fetchall()] over the
    rows of the query, ordered by [p.id]. *)
Definition fetchall (fuente : list row) (limit offset : nat) : list row :=
  take limit (drop offset fuente).

(** The variables of the loop, and the sizes of the pages fetched so far. *)
Record estado := Estado {
  grupos : gmap string grupo;
  procesados : nat;
  paginas : list nat
}.

Definition estado_inicial : estado :=
  {| grupos := ∅; procesados := 0; paginas := [] |}.

(** [while offset < total_rows: ...]; [fuel] bounds the number of
    iterations and [None] means that it ran out. *)
Fixpoint bucle (fuel : nat) (fuente : list row) (batch_size total_rows offset : nat)
    (st : estado) : option estado :=
  if (offset <? total_rows)%nat then
    match fuel with
    | O => None
    | S fuel' =>
        let rows := fetchall fuente batch_size offset in
        match rows with
        | [] => Some {| grupos := grupos st; procesados := procesados st;
                        paginas := paginas st ++ [0%nat] |}
        | _ =>
            bucle fuel' fuente batch_size total_rows (offset + batch_size)
              {| grupos := procesar_rows (grupos st) rows;
                 procesados := (procesados st + length rows)%nat;
                 paginas := paginas st ++ [length rows] |}
        end
    end
  else Some st.

(** The loop run from [offset = 0] on the empty [defaultdict]; as many
    iterations as there are rows are always enough ([paginar_total]). *)
Definition paginar (batch_size total_rows : nat) (fuente : list row) : option estado :=
  bucle total_rows fuente batch_size total_rows 0 estado_inicial.

(** ** The consolidator ([consolidar_visible.py], l. 131-166) *)

Definition Si : string := String "S" (String (ascii_of_N 237) EmptyString).
Definition No : string := "No".

(** The three columns of one pharmacy in a row of the table. *)
Record columna := Columna {
  c_farmacia : string;
  c_Precio : option Z;
  c_EnStock : string;
  c_URL : string
}.

(** One row of [tabla_final]. *)
Record fila := Fila {
  Producto : string;
  EAN : string;
  columnas : list columna;
  Precio_Min : option Z;
  Precio_Max : option Z;
  Ahorro_EUR : Z
}.

Definition hacer_columna (datos : grupo) (f : string) : columna :=
  {| c_farmacia := f;
     c_Precio := precios datos !! f;
     c_EnStock := if default false (stocks datos !! f) then Si else No;
     c_URL := default "" (urls datos !! f) |}.

(** The price a column adds to [precios_validos], if any (l. 147-148). *)
Definition precio_valido (c : columna) : option Z :=
  if bool_decide (c_EnStock c = Si) then c_Precio c else None.

Definition precios_validos (datos : grupo) : list Z :=
  omap (fun f => precio_valido (hacer_columna datos f)) farmacias_conocidas.

(** [min] and [max] of a list that is not empty. *)
Definition py_min (x : Z) (l : list Z) : Z := foldl Z.min x l.
Definition py_max (x : Z) (l : list Z) : Z := foldl Z.max x l.

Definition hacer_fila (datos : grupo) : fila :=
  let cols := map (hacer_columna datos) farmacias_conocidas in
  match precios_validos datos with
  | p :: ps =>
      {| Producto := nombre_ref datos; EAN := ean_ref datos; columnas := cols;
         Precio_Min := Some (py_min p ps); Precio_Max := Some (py_max p ps);
         Ahorro_EUR := py_max p ps - py_min p ps |}
  | [] =>
      {| Producto := nombre_ref datos; EAN := ean_ref datos; columnas := cols;
         Precio_Min := None; Precio_Max := None; Ahorro_EUR := 0 |}
  end.

(** [x['Ahorro_EUR'] or -1]. *)
Definition clave_orden (x : fila) : Z :=
  if Ahorro_EUR x =? 0 then -1 else Ahorro_EUR x.

Definition antes (x y : fila) : Prop := clave_orden y <= clave_orden x.

#[global] Instance antes_dec : RelDecision antes.
Proof. intros x y. unfold antes. apply _. Defined.

(** The table before the sort: one row for each item of [grupos]. The
    items are taken in the order of [map_to_list]; the insertion order of
    the Python [dict] only decides the order of rows with equal savings,
    which the stable [list.sort] keeps and the model does not. *)
Definition tabla_sin_ordenar (grupos : gmap string grupo) : list fila :=
  map (fun kv => hacer_fila kv.2) (map_to_list grupos).

(** [tabla_final] after [sort(key=..., reverse=True)]. *)
Definition tabla_final (grupos : gmap string grupo) : list fila :=
  merge_sort antes (tabla_sin_ordenar grupos).

(** [main] up to the table handed to the Excel writer; [None] when the
    function returns early because there are no rows, or the loop is
    out of fuel. *)
Definition main_con (batch_size : nat) (fuente : list row) : option (list fila) :=
  let total_rows := length fuente in
  if (total_rows =? 0)%nat then None
  else st ← paginar batch_size total_rows fuente; Some (tabla_final (grupos st)).

Definition batch_size : nat := Z.to_nat 10000.

Definition main (fuente : list row) : option (list fila) := main_con batch_size fuente.

(** ** The pandas variant: selection (l. 77-80), general information
    (l. 99-102) and statistics (l. 105-112) of [consolidar.py] *)

Module Rapida.

(** The order of [sort_values(by=['en_stock', 'precio'],
    ascending=[False, True])]: rows in stock first, then by rising price,
    a missing price ([NaN]) after every price. *)
Definition precio_antes (p q : option Z) : bool :=
  match p, q with
  | Some a, Some b => a <=? b
  | _, None => true
  | None, Some _ => false
  end.

Definition ordenb (r1 r2 : row) : bool :=
  match en_stock r1, en_stock r2 with
  | true, false => true
  | false, true => false
  | _, _ => precio_antes (precio r1) (precio r2)
  end.

Definition orden (r1 r2 : row) : Prop := ordenb r1 r2 = true.

#[global] Instance orden_dec : RelDecision orden.
Proof. intros r1 r2. unfold orden. apply _. Defined.

Definition sort_values (df : list row) : list row := merge_sort orden df.

(** [drop_duplicates(subset=['match_key', 'farmacia'], keep='first')];
    [vistos] are the pairs met so far. *)
Fixpoint drop_duplicates (vistos : list (string * string)) (df : list row)
  : list row :=
  match df with
  | [] => []
  | r :: df' =>
      if bool_decide ((clave r, farmacia r) ∈ vistos)
      then drop_duplicates vistos df'
      else r :: drop_duplicates ((clave r, farmacia r) :: vistos) df'
  end.

Definition best_per_pharmacy (df : list row) : list row :=
  drop_duplicates [] (sort_values df).

(** The first row of a frame for a match key and a pharmacy. *)
Fixpoint primera (k f : string) (df : list row) : option row :=
  match df with
  | [] => None
  | r :: df' =>
      if bool_decide ((clave r, farmacia r) = (k, f)) then Some r
      else primera k f df'
  end.

(** The cell of the price pivot (l. 84) and of the stock pivot (l. 90)
    for a match key and a pharmacy: the price and the stock flag of the one
    row [best_per_pharmacy] keeps for them.  The URL pivot (l. 87) is not
    modelled: among rows that tie on stock and price it shows the URL of
    the one the stable sort leaves first. *)
Definition celda (df : list row) (k f : string) : option (option Z * bool) :=
  (λ r, (precio r, en_stock r)) <$> primera k f (best_per_pharmacy df).

(** The pair [drop_duplicates] and [pivot] work on. *)
Definition par (r : row) : string * string := (clave r, farmacia r).

(** The prices of the price pivot in the row of a match key, over the
    known pharmacies ([consolidated[precio_cols]], l. 105-106); a missing
    cell and a [NaN] cell alike carry no price. *)
Definition precios_fila (df : list row) (k : string) : list Z :=
  omap (λ f, c ← celda df k f; c.1) farmacias_conocidas.

(** [min(axis=1)], [max(axis=1)], and their difference with
    [fillna(0)] (l. 109-112). *)
Definition Precio_Min (df : list row) (k : string) : option Z :=
  match precios_fila df k with
  | [] => None
  | p :: ps => Some (py_min p ps)
  end.

Definition Precio_Max (df : list row) (k : string) : option Z :=
  match precios_fila df k with
  | [] => None
  | p :: ps => Some (py_max p ps)
  end.

Definition Ahorro_EUR (df : list row) (k : string) : Z :=
  match Precio_Max df k, Precio_Min df k with
  | Some M, Some m => M - m
  | _, _ => 0
  end.

(** The first row of a frame for a match key. *)
Fixpoint primera_de (k : string) (df : list row) : option row :=
  match df with
  | [] => None
  | r :: df' => if bool_decide (clave r = k) then Some r else primera_de k df'
  end.

(** [general_info] (l. 101): the name and the validated EAN of the first
    row [best_per_pharmacy] has for a match key. *)
Definition general_info (df : list row) (k : string)
  : option (string * option string) :=
  (λ r, (nombre r, if is_valid_ean (ean r) then ean r else None))
    <$> primera_de k (best_per_pharmacy df).

End Rapida.

(** ** Reference definitions and sample inputs *)

(** What the specification's sentence describes: a string of ASCII
    decimal digits only, of length 7 to 14, nothing stripped. *)
Definition ean_solo_digitos (ean : option string) : bool :=
  match ean with
  | None => false
  | Some e =>
      forallb Texto.isdecimal_ascii (Texto.chars e)
      && ((7 <=? String.length e)%nat && (String.length e <=? 14)%nat)
  end.

(** A row of match key [k] that carries an EAN [is_valid_ean] accepts. *)
Definition con_ean (k : string) (r : row) : bool :=
  bool_decide (clave r = k) && is_valid_ean (ean r).

(** The first valid EAN seen among the rows of match key [k], and [""]
    when there is none. *)
Fixpoint primer_ean (k : string) (rows : list row) : string :=
  match rows with
  | [] => ""
  | r :: rows' => if con_ean k r then str_of (ean r) else primer_ean k rows'
  end.

(** The sizes of the pages the loop fetches when the source has
    [total_rows] rows: a function of the numbers alone. *)
Fixpoint plan (fuel batch_size total_rows offset : nat) : list nat :=
  if (offset <? total_rows)%nat then
    match fuel with
    | O => []
    | S fuel' =>
        Nat.min batch_size (total_rows - offset)
        :: plan fuel' batch_size total_rows (offset + batch_size)
    end
  else [].

(** A listing of "paracetamol" without EAN: product [id] of pharmacy [f]. *)
Definition mk_obs (id : Z) (f : string) (p : Z) (s : bool) : row :=
  {| p_id := id; farmacia := f; nombre := "paracetamol";
     url := ("https://" ++ f ++ "/p/" ++ pretty id)%string;
     ean := None; precio := Some p; en_stock := s |}.

(** A row without a price, and a row without a URL: rows the database
    does not hold, which exercise the guard of l. 111 and the plain
    storing of the URL. *)
Definition row_sin_precio : row :=
  {| p_id := 7; farmacia := "Atida"; nombre := "Aspirina 500"; url := "https://a/7";
     ean := Some "8412345678901"; precio := None; en_stock := true |}.

Definition row_sin_url : row :=
  {| p_id := 8; farmacia := "Atida"; nombre := "Aspirina 500"; url := "";
     ean := Some "8412345678901"; precio := Some 300; en_stock := true |}.

(** The group of scenario A without its third vendor: one in-stock price
    and one lower out-of-stock price. *)
Definition grupo_mixto : grupo :=
  obtener (procesar_rows ∅ [mk_obs 1 "DosFarma" 500 true; mk_obs 2 "Atida" 450 false])
          "NAME_paracetamol".

(** A source of 250 rows. *)
Definition fuente_250 : list row :=
  map (λ i : nat,
         {| p_id := Z.of_nat i;
            farmacia := if Nat.even i then "Atida" else "DosFarma";
            nombre := if (i <? 125)%nat then "Crema X 50ml" else "Vitamina C 1000mg";
            url := ("https://x/p/" ++ pretty i)%string;
            ean := if (i mod 5 =? 0)%nat then Some "8412345678901" else None;
            precio := if (i mod 7 =? 0)%nat then None else Some (Z.of_nat (1000 - i));
            en_stock := negb (i mod 3 =? 0)%nat |})
      (seq 0 250).

(** ** Further reference definitions *)

(** [s.lower()] on the Latin-1 range, where it works character by
    character. *)
Definition str_lower (s : string) : string :=
  string_of_list_ascii (map Texto.lower (Texto.chars s)).

(** A lower-case ASCII letter or an ASCII digit. *)
Definition palabra_char (c : ascii) : bool :=
  Texto.entre 48 57 (Texto.code c) || Texto.entre 97 122 (Texto.code c).

(** The character-wise step of [clean_name]: a character that is neither
    alphanumeric nor whitespace becomes a blank. *)
Definition blanquear (c : ascii) : ascii :=
  if Texto.isalnum c || Texto.isspace c then c else " "%char.

(** The three updates of one row (l. 103-116), applied to the group of
    its match key. *)
Definition actualizar (r : row) (g : grupo) : grupo :=
  guardar_farmacia r
    (guardar_ean (match_key_of (ean r) (nombre r)).2 (ean r)
       (guardar_nombre (nombre r) g)).

(** The test of l. 103 on the names alone: the stored name and the
    incoming one. *)
Definition elegir_nombre (actual nombre : string) : string :=
  if bool_decide (actual = "")
     || (String.length actual <? String.length nombre)%nat
  then nombre else actual.

(** The rows of a match key, in the order read. *)
Definition rows_de (k : string) (rows : list row) : list row :=
  filter (λ r, clave r = k) rows.

(** ** The SQL variant: the match key ([consolidar_sql.py], l. 42-60) *)

Module Sql.

(** [ean ~ '^[0-9]+$']: one ASCII digit or more, nothing else. *)
Definition solo_digitos (l : list ascii) : bool :=
  match l with
  | [] => false
  | _ => forallb Texto.isdecimal_ascii l
  end.

(** The column [ean_valido] (l. 46-49). *)
Definition ean_valido (ean : option string) : option string :=
  match ean with
  | None => None
  | Some e =>
      if solo_digitos (Texto.chars e)
         && ((7 <=? String.length e)%nat && (String.length e <=? 14)%nat)
      then Some e else None
  end.

(** The column [nombre_norm] (l. 50):
    [regexp_replace(lower(nombre), '[^a-z0-9]', ' ', 'g')].  Whatever the
    locale does to letters outside ASCII, they stay outside [a-z0-9] and
    become blanks. *)
Definition nombre_norm (nombre : string) : list ascii :=
  map (λ c, if palabra_char c then c else " "%char)
      (map Texto.lower (Texto.chars nombre)).

(** The class [\s] on ASCII. *)
Definition es_espacio (c : ascii) : bool :=
  Texto.entre 9 13 (Texto.code c) || (Texto.code c =? 32)%N.

(** Leading and trailing blanks, as [trim] removes them. *)
Fixpoint ltrim (l : list ascii) : list ascii :=
  match l with
  | [] => []
  | c :: l' => if bool_decide (c = " "%char) then ltrim l' else l
  end.

Fixpoint rtrim (l : list ascii) : list ascii :=
  match l with
  | [] => []
  | c :: l' =>
      match rtrim l' with
      | [] => if bool_decide (c = " "%char) then [] else [c]
      | t => c :: t
      end
  end.

Definition trim (l : list ascii) : list ascii := rtrim (ltrim l).

(** [regexp_replace(s, '\s+', ' ', 'g')]: a whitespace character opens a
    run, and the whole run becomes one blank. *)
Fixpoint colapsar (l : list ascii) : list ascii :=
  match l with
  | [] => []
  | c :: l' =>
      if es_espacio c then " "%char :: ltrim (colapsar l')
      else c :: colapsar l'
  end.

(** The column [match_key] (l. 58):
    [COALESCE(ean_valido, 'NAME_' || trim(regexp_replace(...)))]. *)
Definition match_key (ean : option string) (nombre : string) : string :=
  match ean_valido ean with
  | Some e => e
  | None =>
      ("NAME_" ++ string_of_list_ascii (trim (colapsar (nombre_norm nombre))))%string
  end.

End Sql.

(** ** Column letters of the exporter ([exportar_total_excel.py], l. 43-50) *)

Module Excel.

(** [while idx > 0: idx, remainder = divmod(idx - 1, 26); ...]; [fuel]
    bounds the number of iterations and [None] means that it ran out. *)
Fixpoint col_letter_go (fuel idx : nat) (letter : string) : option string :=
  if (0 <? idx)%nat then
    match fuel with
    | O => None
    | S fuel' =>
        let remainder := ((idx - 1) mod 26)%nat in
        col_letter_go fuel' ((idx - 1) / 26)%nat
          (String (ascii_of_nat (65 + remainder)) letter)
    end
  else Some letter.

(** [col_letter(col_idx)] for a 0-based index; [col_idx + 1] iterations
    are always enough. *)
Definition col_letter (col_idx : nat) : option string :=
  col_letter_go (col_idx + 1) (col_idx + 1) "".

(** The number a column name stands for in a spreadsheet: bijective
    base 26, ["A"] is 1. *)
Definition paso (acc : nat) (c : ascii) : nat :=
  (26 * acc + (nat_of_ascii c - 64))%nat.

Definition valor (s : string) : nat := foldl paso 0%nat (Texto.chars s).

End Excel.

(** ** The scrapers: storing the hits of a page ([scrapers/atida.py],
    l. 338-375; the same statements in [scrapers/dosfarma.py], l. 355-394,
    and, without the [limit] test, in [scrapers/vazquez.py], l. 282-316) *)

Module Db.

(** The columns of [productos] and of [precios] ([db_models.py],
    l. 12-35) that the query of the consolidator reads or orders by.  The
    ids are primary keys; [precios.precio] is [nullable=False], a value
    and not an [option]; [fecha_captura] is an instant. *)
Record Producto := mkProducto {
  prod_id : Z;
  prod_nombre : string;
  prod_url : string;
  prod_farmacia : string;
  prod_ean : option string
}.

Record Precio := mkPrecio {
  prec_id : Z;
  prec_producto_id : Z;
  prec_precio : Z;
  prec_en_stock : bool;
  prec_fecha_captura : Z
}.

Record base := Base {
  productos : list Producto;
  precios : list Precio
}.

(** The dictionary [extraer_datos_producto] returns, with the keys that
    reach the columns above.  A hit without a URL has [""]
    ([hit.get("url", "")]), a hit without an SKU has [""], and a hit
    without a readable price has [None]. *)
Record datos := Datos {
  d_nombre : string;
  d_url : string;
  d_sku : string;
  d_precio : option Z;
  d_en_stock : bool
}.

(** The variables of the loop: the session and the two counters. *)
Record corrida := Corrida {
  db : base;
  exitos : Z;
  errores : Z
}.

(** [not datos["url"] or datos["precio"] is None]. *)
Definition descartado (d : datos) : bool :=
  bool_decide (d_url d = "") || bool_decide (d_precio d = None).

(** [db.query(Producto).filter_by(url=...).first()]. *)
Definition buscar (u : string) (ps : list Producto) : option Producto :=
  head (filter (λ p, prod_url p = u) ps).

(** The id [db.flush()] gives a new row: a value of the sequence, above
    every id of the table. *)
Definition nuevo_id (ids : list Z) : Z := 1 + foldr Z.max 0 ids.

(** The [else] branch: the product found takes the name of the hit, and
    its SKU when the hit has one. *)
Definition poner_datos (d : datos) (p : Producto) : Producto :=
  {| prod_id := prod_id p; prod_nombre := d_nombre d; prod_url := prod_url p;
     prod_farmacia := prod_farmacia p;
     prod_ean := if bool_decide (d_sku d = "") then prod_ean p
                 else Some (d_sku d) |}.

(** The table after the product [buscar] finds has been changed in
    place. *)
Fixpoint actualizar_primero (d : datos) (ps : list Producto) : list Producto :=
  match ps with
  | [] => []
  | p :: ps' =>
      if bool_decide (prod_url p = d_url d) then poner_datos d p :: ps'
      else p :: actualizar_primero d ps'
  end.

(** The body of [for hit in hits] after the [limit] test: the hit is
    skipped, or its product is inserted or updated and one row of
    [precios] is added. *)
Definition guardar_hit (farmacia_nombre : string) (hoy : Z) (st : corrida)
    (d : datos) : corrida :=
  if descartado d
  then {| db := db st; exitos := exitos st; errores := errores st + 1 |}
  else
    match d_precio d with
    | None => st
    | Some precio =>
        let ps := productos (db st) in
        let prs := precios (db st) in
        let '(ps', producto_id) :=
          match buscar (d_url d) ps with
          | None =>
              let i := nuevo_id (prod_id <$> ps) in
              (ps ++ [ {| prod_id := i; prod_nombre := d_nombre d;
                          prod_url := d_url d; prod_farmacia := farmacia_nombre;
                          prod_ean := Some (d_sku d) |} ], i)
          | Some p => (actualizar_primero d ps, prod_id p)
          end in
        {| db := {| productos := ps';
                    precios :=
                      prs ++ [ {| prec_id := nuevo_id (prec_id <$> prs);
                                  prec_producto_id := producto_id;
                                  prec_precio := precio;
                                  prec_en_stock := d_en_stock d;
                                  prec_fecha_captura := hoy |} ] |};
           exitos := exitos st + 1; errores := errores st |}
    end.

(** [for hit in hits: if limit > 0 and exitos >= limit: break; ...];
    [limit = 0] is a run without a limit. *)
Fixpoint guardar_hits (farmacia_nombre : string) (hoy limit : Z) (st : corrida)
    (hits : list datos) : corrida :=
  match hits with
  | [] => st
  | d :: hits' =>
      if (0 <? limit) && (limit <=? exitos st) then st
      else guardar_hits farmacia_nombre hoy limit
             (guardar_hit farmacia_nombre hoy st d) hits'
  end.

(** An empty database before a run. *)
Definition corrida_inicial : corrida :=
  {| db := {| productos := []; precios := [] |}; exitos := 0; errores := 0 |}.

(** The database after the hits of a page. *)
Definition base_tras (farmacia_nombre : string) (hoy limit : Z) (st : corrida)
    (hits : list datos) : base :=
  db (guardar_hits farmacia_nombre hoy limit st hits).

End Db.

(** ** The query of the consolidator ([consolidar_visible.py], l. 65-79) *)

(** The subquery: of the rows of [precios] of a product, the one with the
    latest [fecha_captura]; among rows of one instant, which the SQL
    leaves open, the first stored. *)
Definition mas_reciente (producto_id : Z) (mejor : option Db.Precio)
    (pr : Db.Precio) : option Db.Precio :=
  if bool_decide (Db.prec_producto_id pr = producto_id)
  then match mejor with
       | None => Some pr
       | Some m =>
           if Db.prec_fecha_captura m <? Db.prec_fecha_captura pr
           then Some pr else mejor
       end
  else mejor.

Definition ultimo_precio (prs : list Db.Precio) (producto_id : Z)
  : option Db.Precio :=
  foldl (mas_reciente producto_id) None prs.

(** [ORDER BY p.id]. *)
Definition por_id (p q : Db.Producto) : Prop := Db.prod_id p <= Db.prod_id q.

#[global] Instance por_id_dec : RelDecision por_id.
Proof. intros p q. unfold por_id. apply _. Defined.

(** The join: a product with its latest price; a product without any
    price gives no row. *)
Definition unir (prs : list Db.Precio) (p : Db.Producto) : option row :=
  pr ← ultimo_precio prs (Db.prod_id p);
  Some {| p_id := Db.prod_id p; farmacia := Db.prod_farmacia p;
          nombre := Db.prod_nombre p; url := Db.prod_url p;
          ean := Db.prod_ean p; precio := Some (Db.prec_precio pr);
          en_stock := Db.prec_en_stock pr |}.

(** The rows of the query without [LIMIT] and [OFFSET]: the source the
    paged driver reads. *)
Definition consulta (b : Db.base) : list row :=
  omap (unir (Db.precios b)) (merge_sort por_id (Db.productos b)).

(** The dictionary the aggregator builds from a database. *)
Definition agregar (b : Db.base) : gmap string grupo :=
  procesar_rows ∅ (consulta b).

(** What the database guarantees of every row of the query: a price
    ([nullable=False]), and, as every scraper stores a hit only with a URL
    and under its own [FARMACIA_NOMBRE], a URL and one of the five known
    pharmacies. *)
Definition almacenable (r : row) : bool :=
  bool_decide (is_Some (precio r))
  && negb (bool_decide (url r = ""))
  && bool_decide (farmacia r ∈ farmacias_conocidas).


(** The hits of one page: two products, a hit without a price and a hit
    without a URL. *)
Definition hit_sin_precio : Db.datos :=
  {| Db.d_nombre := "Aspirina 500"; Db.d_url := "https://www.atida.com/aspirina-500";
     Db.d_sku := "8412345678901"; Db.d_precio := None; Db.d_en_stock := true |}.

Definition hit_sin_url : Db.datos :=
  {| Db.d_nombre := "Aspirina 500"; Db.d_url := "";
     Db.d_sku := "8412345678901"; Db.d_precio := Some 300; Db.d_en_stock := true |}.

Definition hit_paracetamol : Db.datos :=
  {| Db.d_nombre := "Paracetamol 1g"; Db.d_url := "https://www.atida.com/paracetamol-1g";
     Db.d_sku := "8470001234567"; Db.d_precio := Some 450; Db.d_en_stock := false |}.

Definition hit_ibuprofeno : Db.datos :=
  {| Db.d_nombre := "Ibuprofeno 600"; Db.d_url := "https://www.atida.com/ibuprofeno-600";
     Db.d_sku := ""; Db.d_precio := Some 520; Db.d_en_stock := true |}.

(** * Properties *)

(** ** The model on concrete inputs *)

Example clean_name_vitamina : clean_name "Vitamina C 1000mg" = "vitamina c 1000mg".
Proof. reflexivity. Qed.

Example clean_name_blanks : clean_name "  Crema--X   50ML " = "crema x 50ml".
Proof. reflexivity. Qed.

Example is_valid_ean_13 : is_valid_ean (Some "8412345678901") = true.
Proof. reflexivity. Qed.

Example is_valid_ean_short : is_valid_ean (Some "123456") = false.
Proof. reflexivity. Qed.

Example clean_name_accent :
  clean_name (String "C" (String "r" (String (ascii_of_N 232) "me  BIO")))
  = "creme bio".
Proof. reflexivity. Qed.

Example entrada_two_in_stock :
  entrada (procesar_rows ∅ [mk_obs 1 "Atida" 500 true; mk_obs 2 "Atida" 450 true])
          "NAME_paracetamol" "Atida"
  = (Some 450, Some "https://Atida/p/2", Some true).
Proof. vm_compute. reflexivity. Qed.

Example main_scenario_A :
  main [mk_obs 1 "DosFarma" 500 true; mk_obs 2 "Atida" 450 false;
        mk_obs 3 "PromoFarma" 450 true]
  = Some [ {| Producto := "paracetamol"; EAN := "";
              columnas :=
                [ Columna "DosFarma" (Some 500) Si "https://DosFarma/p/1";
                  Columna "FarmaciasDirect" None No "";
                  Columna "PromoFarma" (Some 450) Si "https://PromoFarma/p/3";
                  Columna "Atida" (Some 450) No "https://Atida/p/2";
                  Columna "FarmaciasVazquez" None No "" ];
              Precio_Min := Some 450; Precio_Max := Some 500;
              Ahorro_EUR := 50 |} ].
Proof. vm_compute. reflexivity. Qed.

(** ** EAN validation and the match key *)

Section Ean.

Local Abbreviation espacio c := (Texto.isspace c = true).
Local Abbreviation digito c := (Texto.isdigit c = true).

Lemma isdigit_not_isspace (c : ascii) : digito c → Texto.isspace c = false.
Proof. destruct c as [[] [] [] [] [] [] [] []]; vm_compute; congruence. Qed.

Lemma lstrip_split (l : list ascii) :
  ∃ izq, l = izq ++ Texto.lstrip l ∧ Forall (λ c, espacio c) izq.
Proof.
  induction l as [|c l [izq [Hl Hizq]]]; simpl.
  - exists []. split; [reflexivity | constructor].
  - destruct (Texto.isspace c) eqn:Hc.
    + exists (c :: izq). split; [simpl; congruence | by constructor].
    + exists []. split; [reflexivity | constructor].
Qed.

Lemma lstrip_spaces_app (izq l : list ascii) :
  Forall (λ c, espacio c) izq → Texto.lstrip (izq ++ l) = Texto.lstrip l.
Proof. induction 1 as [|c izq Hc _ IH]; simpl; [reflexivity | by rewrite Hc]. Qed.

Lemma lstrip_head (c : ascii) (l : list ascii) :
  Texto.isspace c = false → Texto.lstrip (c :: l) = c :: l.
Proof. intros Hc. simpl. by rewrite Hc. Qed.

(** Every string is its stripped form between two runs of whitespace. *)
Lemma strip_split (l : list ascii) :
  ∃ izq der, l = izq ++ Texto.strip l ++ der
             ∧ Forall (λ c, espacio c) izq ∧ Forall (λ c, espacio c) der.
Proof.
  destruct (lstrip_split l) as [izq [Hl Hizq]].
  destruct (lstrip_split (rev (Texto.lstrip l))) as [red [Hr Hred]].
  exists izq, (rev red). repeat split; [| done | by apply Forall_rev].
  unfold Texto.strip. rewrite <- rev_app_distr, <- Hr, rev_involutive. exact Hl.
Qed.

(** Stripping a block that starts and ends with a digit, padded with
    whitespace, gives the block back. *)
Lemma strip_padded (izq d der : list ascii) :
  d ≠ [] → Forall (λ c, digito c) d →
  Forall (λ c, espacio c) izq → Forall (λ c, espacio c) der →
  Texto.strip (izq ++ d ++ der) = d.
Proof.
  intros Hne Hd Hizq Hder. unfold Texto.strip.
  rewrite lstrip_spaces_app by done.
  destruct d as [|c d]; [done|].
  rewrite <- app_comm_cons, lstrip_head
    by (apply isdigit_not_isspace; by inversion Hd).
  rewrite app_comm_cons, rev_app_distr.
  rewrite lstrip_spaces_app by (by apply Forall_rev).
  assert (Hrd : Forall (λ c, digito c) (rev (c :: d))) by (by apply Forall_rev).
  destruct (rev (c :: d)) as [|c' d'] eqn:Hrev.
  - apply (f_equal (@length ascii)) in Hrev. rewrite length_rev in Hrev. done.
  - rewrite lstrip_head by (apply isdigit_not_isspace; by inversion Hrd).
    by rewrite <- Hrev, rev_involutive.
Qed.

Lemma str_isdigit_Forall (l : list ascii) :
  Texto.str_isdigit l = true ↔ l ≠ [] ∧ Forall (λ c, digito c) l.
Proof.
  unfold Texto.str_isdigit. destruct l as [|c l].
  - split; [done | by intros [? _]].
  - rewrite forallb_forall, Forall_forall. split.
    + intros H. split; [done|]. intros x Hx. apply H. by apply list_elem_of_In.
    + intros [_ H] x Hx. apply H. by apply list_elem_of_In.
Qed.

End Ean.

(** C6, as stated, fails: a run of seven digits after a leading blank
    contains a character that is not a digit, and [is_valid_ean] accepts
    it, because the input is stripped before it is tested. *)
Lemma C6_padded_ean_is_accepted :
  is_valid_ean (Some " 1234567") = true
  ∧ forallb Texto.isdecimal_ascii (Texto.chars " 1234567") = false
  ∧ ean_solo_digitos (Some " 1234567") = false.
Proof. repeat split; reflexivity. Qed.

(** C6, amended: [is_valid_ean] returns true exactly for a string that is
    a block of 7 to 14 characters accepted by [str.isdigit], with any
    amount of whitespace before and after it; [None] gives false. *)
Theorem C6_is_valid_ean_stripped (ean : option string) :
  is_valid_ean ean = true
  ↔ ∃ (e : string) (izq d der : list ascii),
      ean = Some e
      ∧ Texto.chars e = izq ++ d ++ der
      ∧ Forall (λ c, Texto.isspace c = true) izq
      ∧ Forall (λ c, Texto.isspace c = true) der
      ∧ Forall (λ c, Texto.isdigit c = true) d
      ∧ (7 ≤ length d ≤ 14)%nat.
Proof.
  split.
  - destruct ean as [e|]; [|done]. cbn [is_valid_ean].
    rewrite !andb_true_iff, str_isdigit_Forall, Nat.leb_le, Nat.leb_le.
    intros [[_ Hd] [H7 H14]].
    destruct (strip_split (Texto.chars e)) as (izq & der & He & Hizq & Hder).
    exists e, izq, (Texto.strip (Texto.chars e)), der. repeat split; done.
  - intros (e & izq & d & der & -> & He & Hizq & Hder & Hd & H7 & H14).
    cbn [is_valid_ean].
    assert (Hne : d ≠ []) by (intros ->; simpl in H7; lia).
    rewrite He, strip_padded by done.
    rewrite !andb_true_iff, str_isdigit_Forall, Nat.leb_le, Nat.leb_le. done.
Qed.

(** C7: the match key is the EAN itself, character for character, when
    [is_valid_ean] accepts it (which a missing EAN never is), and otherwise
    ["NAME_"] followed by the normalised name; the record of scenario C
    gets the key ["NAME_vitamina c 1000mg"]. *)
Theorem C7_match_key (ean : option string) (nombre : string) :
  match is_valid_ean ean, ean with
  | true, Some e => match_key_of ean nombre = (e, true)
  | true, None => False
  | false, _ =>
      match_key_of ean nombre = (("NAME_" ++ clean_name nombre)%string, false)
  end
  ∧ match_key_of (Some "abc123") "Vitamina C 1000mg"
    = ("NAME_vitamina c 1000mg", false).
Proof.
  split; [|reflexivity].
  unfold match_key_of. destruct (is_valid_ean ean) eqn:Hv; [|reflexivity].
  destruct ean as [e|]; [reflexivity | discriminate].
Qed.

(** ** The aggregator, one row at a time *)

Section Agregador.

Implicit Types (grupos : gmap string grupo) (g : grupo) (r : row)
               (k f : string).

Lemma procesar_row_eq grupos r :
  procesar_row grupos r
  = <[clave r :=
        guardar_farmacia r
          (guardar_ean (match_key_of (ean r) (nombre r)).2 (ean r)
             (guardar_nombre (nombre r) (obtener grupos (clave r))))]> grupos.
Proof.
  unfold procesar_row, clave. by destruct (match_key_of (ean r) (nombre r)).
Qed.

Lemma procesar_row_lookup_ne grupos r k :
  k ≠ clave r → procesar_row grupos r !! k = grupos !! k.
Proof. intros Hk. rewrite procesar_row_eq. by apply lookup_insert_ne. Qed.

Lemma obtener_procesar_row_ne grupos r k :
  k ≠ clave r → obtener (procesar_row grupos r) k = obtener grupos k.
Proof. intros Hk. unfold obtener. by rewrite procesar_row_lookup_ne. Qed.

Lemma obtener_procesar_row grupos r :
  obtener (procesar_row grupos r) (clave r)
  = guardar_farmacia r
      (guardar_ean (match_key_of (ean r) (nombre r)).2 (ean r)
         (guardar_nombre (nombre r) (obtener grupos (clave r)))).
Proof. unfold obtener at 1. by rewrite procesar_row_eq, lookup_insert_eq. Qed.

Lemma procesar_rows_app grupos (l1 l2 : list row) :
  procesar_rows grupos (l1 ++ l2) = procesar_rows (procesar_rows grupos l1) l2.
Proof. apply foldl_app. Qed.

(** The name and EAN updates leave the three pharmacy dictionaries alone. *)
Lemma guardar_nombre_dicts nombre g :
  precios (guardar_nombre nombre g) = precios g
  ∧ urls (guardar_nombre nombre g) = urls g
  ∧ stocks (guardar_nombre nombre g) = stocks g
  ∧ ean_ref (guardar_nombre nombre g) = ean_ref g.
Proof. unfold guardar_nombre. by case_match. Qed.

Lemma guardar_ean_dicts b e g :
  precios (guardar_ean b e g) = precios g
  ∧ urls (guardar_ean b e g) = urls g
  ∧ stocks (guardar_ean b e g) = stocks g.
Proof. unfold guardar_ean. by destruct b. Qed.

Lemma guardar_farmacia_ean_ref r g :
  ean_ref (guardar_farmacia r g) = ean_ref g.
Proof. unfold guardar_farmacia. by repeat case_match. Qed.

Lemma guardar_farmacia_nombre_ref r g :
  nombre_ref (guardar_farmacia r g) = nombre_ref g.
Proof. unfold guardar_farmacia. by repeat case_match. Qed.

Lemma guardar_ean_nombre_ref b e g :
  nombre_ref (guardar_ean b e g) = nombre_ref g.
Proof. unfold guardar_ean. by destruct b. Qed.

Lemma nombre_ref_procesar_row grupos r :
  nombre_ref (obtener (procesar_row grupos r) (clave r))
  = nombre_ref (guardar_nombre (nombre r) (obtener grupos (clave r))).
Proof.
  by rewrite obtener_procesar_row, guardar_farmacia_nombre_ref,
    guardar_ean_nombre_ref.
Qed.

(** The pharmacy update either leaves an entry as it is, or stores the
    row's price, which is then below any price stored before. *)
Lemma guardar_farmacia_entrada r g f :
  entrada_grupo (guardar_farmacia r g) f = entrada_grupo g f
  ∨ ∃ p, precio r = Some p ∧ f = farmacia r
         ∧ entrada_grupo (guardar_farmacia r g) f
           = (Some p, Some (url r), Some (en_stock r))
         ∧ ∀ pa, precios g !! f = Some pa → en_stock r = true ∧ p < pa.
Proof.
  unfold guardar_farmacia.
  destruct (bool_decide _); [|by left].
  destruct (precio r) as [p|]; [|by left].
  destruct (decide (f = farmacia r)) as [->|Hf].
  - destruct (precios g !! farmacia r) as [pa|] eqn:Hpa.
    + destruct (en_stock r) eqn:Hs; [|by left]. simpl.
      destruct (Z.ltb_spec p pa); [|by left].
      right. exists p. unfold entrada_grupo. simpl.
      rewrite !lookup_insert_eq. split_and!; try done.
      intros pa' Hpa'. by simplify_eq.
    + right. exists p. unfold entrada_grupo. simpl.
      rewrite !lookup_insert_eq. split_and!; try done.
  - left. case_match; [|done]. unfold entrada_grupo. simpl.
    by rewrite !lookup_insert_ne.
Qed.

Lemma entrada_procesar_row grupos r k f :
  entrada (procesar_row grupos r) k f = entrada grupos k f
  ∨ ∃ p, precio r = Some p ∧ k = clave r ∧ f = farmacia r
         ∧ entrada (procesar_row grupos r) k f
           = (Some p, Some (url r), Some (en_stock r))
         ∧ ∀ pa, precios (obtener grupos k) !! f = Some pa
                 → en_stock r = true ∧ p < pa.
Proof.
  destruct (decide (k = clave r)) as [->|Hk].
  - unfold entrada. rewrite obtener_procesar_row.
    set (g1 := guardar_ean _ _ _).
    assert (Hg1 : entrada_grupo g1 f = entrada_grupo (obtener grupos (clave r)) f).
    { unfold entrada_grupo, g1.
      destruct (guardar_ean_dicts (match_key_of (ean r) (nombre r)).2 (ean r)
                  (guardar_nombre (nombre r) (obtener grupos (clave r))))
        as (-> & -> & ->).
      by destruct (guardar_nombre_dicts (nombre r) (obtener grupos (clave r)))
        as (-> & -> & -> & _). }
    destruct (guardar_farmacia_entrada r g1 f) as [Heq|(p & Hp & Hf & He & Hlt)].
    + left. fold (entrada_grupo (guardar_farmacia r g1) f).
      fold (entrada_grupo (obtener grupos (clave r)) f). congruence.
    + right. exists p. split_and!; try done.
      intros pa Hpa. apply Hlt.
      unfold entrada_grupo in Hg1. congruence.
  - left. unfold entrada. by rewrite obtener_procesar_row_ne.
Qed.

End Agregador.

Section Referencias.

Implicit Types (grupos : gmap string grupo) (r : row) (k : string).

(** A row whose EAN is accepted has that EAN as its match key. *)
Lemma clave_con_ean k r : con_ean k r = true → str_of (ean r) = k.
Proof.
  unfold con_ean, clave, match_key_of.
  rewrite andb_true_iff, bool_decide_eq_true. intros [Hk Hv].
  by rewrite Hv in Hk.
Qed.

Lemma ean_ref_procesar_row grupos r k :
  ean_ref (obtener (procesar_row grupos r) k)
  = if con_ean k r then k else ean_ref (obtener grupos k).
Proof.
  destruct (decide (k = clave r)) as [->|Hk].
  - rewrite obtener_procesar_row, guardar_farmacia_ean_ref.
    unfold con_ean. rewrite bool_decide_eq_true_2 by done. simpl.
    unfold clave, match_key_of, guardar_ean.
    destruct (is_valid_ean (ean r)); simpl; [done|].
    by destruct (guardar_nombre_dicts (nombre r)
                   (obtener grupos ("NAME_" ++ clean_name (nombre r))%string))
      as (_ & _ & _ & ->).
  - rewrite obtener_procesar_row_ne by done.
    unfold con_ean. by rewrite bool_decide_eq_false_2.
Qed.

Lemma ean_ref_procesar_rows rows grupos k :
  ean_ref (obtener (procesar_rows grupos rows) k)
  = if existsb (con_ean k) rows then k else ean_ref (obtener grupos k).
Proof.
  revert grupos. induction rows as [|r rows IH]; intros grupos; [done|].
  simpl. rewrite IH, ean_ref_procesar_row.
  destruct (con_ean k r); simpl; [|done]. by destruct (existsb _ _).
Qed.

Lemma primer_ean_existsb rows k :
  primer_ean k rows = if existsb (con_ean k) rows then k else "".
Proof.
  induction rows as [|r rows IH]; [done|]. simpl.
  destruct (con_ean k r) eqn:Hr; simpl; [|done]. by apply clave_con_ean.
Qed.

End Referencias.

(** C5: the reference EAN of a match key, after any run of the aggregator
    from the empty dictionary, is the first valid EAN seen among the rows of
    that key; once it is set, one more row does not change it. *)
Theorem C5_first_valid_ean_is_kept (rows : list row) (k : string) :
  ean_ref (obtener (procesar_rows ∅ rows) k) = primer_ean k rows
  ∧ ∀ r : row,
      ean_ref (obtener (procesar_rows ∅ rows) k) = ""
      ∨ ean_ref (obtener (procesar_rows ∅ (rows ++ [r])) k)
        = ean_ref (obtener (procesar_rows ∅ rows) k).
Proof.
  split.
  - rewrite ean_ref_procesar_rows, primer_ean_existsb.
    by destruct (existsb _ _).
  - intros r. rewrite !ean_ref_procesar_rows, existsb_app. simpl.
    destruct (existsb (con_ean k) rows); simpl; [by right|].
    by left.
Qed.

Example scenario_B_same_ean :
  ean_ref (obtener (procesar_rows ∅
    [ Row 1 "Atida" "Crema X 50ml" "https://a/1" (Some "8412345678901") (Some 990) true;
      Row 2 "DosFarma" "CREMA X 50 ML" "https://d/7" (Some "8412345678901") (Some 1050) true ])
    "8412345678901") = "8412345678901".
Proof. vm_compute. reflexivity. Qed.

(** C10: the price stored for a match key and a pharmacy never goes up:
    one row either leaves the entry as it is or stores a strictly lower
    price, and after any further rows the stored price is at most what it
    was. *)
Theorem C10_stored_price_never_increases
    (grupos : gmap string grupo) (k f : string) (p : Z) :
  precios (obtener grupos k) !! f = Some p →
  (∀ r : row,
      entrada (procesar_row grupos r) k f = entrada grupos k f
      ∨ ∃ p', precios (obtener (procesar_row grupos r) k) !! f = Some p' ∧ p' < p)
  ∧ (∀ rows : list row,
      ∃ p', precios (obtener (procesar_rows grupos rows) k) !! f = Some p' ∧ p' ≤ p).
Proof.
  intros Hp.
  assert (Hstep : ∀ (g : gmap string grupo) (q : Z) (r : row),
      precios (obtener g k) !! f = Some q →
      entrada (procesar_row g r) k f = entrada g k f
      ∨ ∃ p', precios (obtener (procesar_row g r) k) !! f = Some p' ∧ p' < q).
  { intros g q r Hq.
    destruct (entrada_procesar_row g r k f) as [Heq|(p' & _ & _ & _ & He & Hlt)].
    - by left.
    - right. exists p'. split; [|by apply Hlt].
      unfold entrada in He. congruence. }
  split; [intros r; by apply Hstep|].
  intros rows. revert grupos p Hp.
  induction rows as [|r rows IH]; intros grupos p Hp.
  - exists p. split; [done | lia].
  - simpl. destruct (Hstep grupos p r Hp) as [Heq|(p' & Hp' & Hlt)].
    + apply IH. unfold entrada in Heq. congruence.
    + destruct (IH _ _ Hp') as (p'' & Hp'' & Hle).
      exists p''. split; [done | lia].
Qed.

Lemma C10_stored_price_witness :
  precios (obtener (procesar_rows ∅ [mk_obs 1 "Atida" 500 true]) "NAME_paracetamol")
    !! "Atida" = Some 500
  ∧ ((∀ r : row,
        entrada (procesar_row (procesar_rows ∅ [mk_obs 1 "Atida" 500 true]) r)
                "NAME_paracetamol" "Atida"
        = entrada (procesar_rows ∅ [mk_obs 1 "Atida" 500 true])
                  "NAME_paracetamol" "Atida"
        ∨ ∃ p', precios (obtener (procesar_row
                   (procesar_rows ∅ [mk_obs 1 "Atida" 500 true]) r)
                   "NAME_paracetamol") !! "Atida" = Some p' ∧ p' < 500)
     ∧ (∀ rows : list row,
        ∃ p', precios (obtener (procesar_rows
                 (procesar_rows ∅ [mk_obs 1 "Atida" 500 true]) rows)
                 "NAME_paracetamol") !! "Atida" = Some p' ∧ p' ≤ 500)).
Proof.
  split; [vm_compute; reflexivity|].
  apply (C10_stored_price_never_increases
           (procesar_rows ∅ [mk_obs 1 "Atida" 500 true]) "NAME_paracetamol" "Atida" 500).
  vm_compute. reflexivity.
Defined.

(** C1 on the paged consolidator: with an out-of-stock entry at 4.50 stored
    for a key and a pharmacy, an in-stock row at 5.00 for the same key and
    pharmacy does not replace it; and a cheaper out-of-stock row does not
    replace a dearer out-of-stock entry either. *)
Theorem C1_in_stock_row_does_not_replace :
  entrada (procesar_rows ∅ [mk_obs 1 "Atida" 450 false]) "NAME_paracetamol" "Atida"
  = (Some 450, Some "https://Atida/p/1", Some false)
  ∧ entrada (procesar_rows ∅ [mk_obs 1 "Atida" 450 false; mk_obs 2 "Atida" 500 true])
            "NAME_paracetamol" "Atida"
    = (Some 450, Some "https://Atida/p/1", Some false)
  ∧ entrada (procesar_rows ∅ [mk_obs 1 "Atida" 500 false; mk_obs 2 "Atida" 450 false])
            "NAME_paracetamol" "Atida"
    = (Some 500, Some "https://Atida/p/1", Some false).
Proof. split_and!; vm_compute; reflexivity. Qed.

(** C2 on the paged consolidator: the same two observations of one key and
    one pharmacy, fed in the two possible orders, leave different (price,
    stock) pairs. *)
Theorem C2_order_changes_the_selection :
  [mk_obs 1 "Atida" 450 false; mk_obs 2 "Atida" 500 true]
    ≡ₚ [mk_obs 2 "Atida" 500 true; mk_obs 1 "Atida" 450 false]
  ∧ entrada (procesar_rows ∅ [mk_obs 1 "Atida" 450 false; mk_obs 2 "Atida" 500 true])
            "NAME_paracetamol" "Atida"
    = (Some 450, Some "https://Atida/p/1", Some false)
  ∧ entrada (procesar_rows ∅ [mk_obs 2 "Atida" 500 true; mk_obs 1 "Atida" 450 false])
            "NAME_paracetamol" "Atida"
    = (Some 500, Some "https://Atida/p/2", Some true).
Proof.
  split_and!; [apply Permutation_swap | vm_compute; reflexivity ..].
Qed.

(** ** The paged driver *)

Section Paginas.

Implicit Types (fuente : list row) (st : estado).

Lemma fetchall_length fuente limit offset :
  length (fetchall fuente limit offset)
  = Nat.min limit (length fuente - offset).
Proof. unfold fetchall. by rewrite length_take, length_drop. Qed.

Lemma fetchall_rest fuente limit offset :
  fetchall fuente limit offset ++ drop (offset + limit) fuente
  = drop offset fuente.
Proof.
  unfold fetchall. rewrite <- drop_drop. apply take_drop.
Qed.

(** With as much fuel as rows left, the loop ends, whatever the page
    size and however stale [total_rows] is. *)
Lemma bucle_total fuel fuente batch_size total_rows offset st :
  (total_rows - offset ≤ fuel)%nat →
  is_Some (bucle fuel fuente batch_size total_rows offset st).
Proof.
  revert offset st. induction fuel as [|fuel IH]; intros offset st Hfuel; simpl.
  - destruct (Nat.ltb_spec offset total_rows); [lia | by eexists].
  - destruct (Nat.ltb_spec offset total_rows); [|by eexists].
    destruct (fetchall fuente batch_size offset) as [|r rows] eqn:Hrows;
      [by eexists|].
    apply IH.
    assert (batch_size ≠ 0)%nat; [|lia].
    intros ->. unfold fetchall in Hrows. by rewrite take_0 in Hrows.
Qed.

(** When [total_rows] is the number of rows of the source, the loop
    aggregates exactly the rows from [offset] on, in order. *)
Lemma bucle_exacto fuel fuente batch_size total_rows offset st :
  total_rows = length fuente → (0 < batch_size)%nat →
  (total_rows - offset ≤ fuel)%nat →
  bucle fuel fuente batch_size total_rows offset st
  = Some {| grupos := procesar_rows (grupos st) (drop offset fuente);
            procesados := (procesados st + (total_rows - offset))%nat;
            paginas := paginas st ++ plan fuel batch_size total_rows offset |}.
Proof.
  intros Htotal Hbatch. revert offset st.
  induction fuel as [|fuel IH]; intros offset st Hfuel; simpl.
  - destruct (Nat.ltb_spec offset total_rows); [lia|].
    rewrite drop_ge by lia. destruct st; simpl.
    f_equal. f_equal; [lia | by rewrite app_nil_r].
  - destruct (Nat.ltb_spec offset total_rows) as [Hlt|Hge].
    + pose proof (fetchall_length fuente batch_size offset) as Hlen.
      pose proof (fetchall_rest fuente batch_size offset) as Hrest.
      destruct (fetchall fuente batch_size offset) as [|r rows] eqn:Hrows.
      { simpl in Hlen. lia. }
      rewrite IH by lia. simpl in Hlen. simpl. f_equal. f_equal.
      * by rewrite <- Hrest, procesar_rows_app.
      * lia.
      * rewrite <- app_assoc. simpl. do 2 f_equal. lia.
    + rewrite drop_ge by lia. destruct st; simpl.
      f_equal. f_equal; [lia | by rewrite app_nil_r].
Qed.

(** The loop always returns. *)
Lemma paginar_total batch_size total_rows fuente :
  is_Some (paginar batch_size total_rows fuente).
Proof. apply bucle_total. lia. Qed.

(** Paging with any positive page size aggregates the whole source. *)
Lemma paginar_exacto batch_size fuente :
  (0 < batch_size)%nat →
  paginar batch_size (length fuente) fuente
  = Some {| grupos := procesar_rows ∅ fuente;
            procesados := length fuente;
            paginas := plan (length fuente) batch_size (length fuente) 0 |}.
Proof.
  intros Hbatch. unfold paginar.
  rewrite bucle_exacto by (done || lia). simpl.
  f_equal. f_equal. lia.
Qed.

End Paginas.

(** C9: on a source of 250 rows the loop with pages of 100 rows fetches
    three pages, of 100, 100 and 50 rows, the loop with pages of 250 rows
    fetches one, and both end with the same dictionary of groups, the one
    obtained by aggregating the 250 rows in one pass. *)
Theorem C9_paging_250_by_100 (fuente : list row) :
  length fuente = 250%nat →
  paginar 100 250 fuente
  = Some {| grupos := procesar_rows ∅ fuente; procesados := 250;
            paginas := [100; 100; 50]%nat |}
  ∧ paginar 250 250 fuente
    = Some {| grupos := procesar_rows ∅ fuente; procesados := 250;
              paginas := [250%nat] |}.
Proof.
  intros Hlen. split.
  - pose proof (paginar_exacto 100 fuente) as H. rewrite Hlen in H.
    rewrite H by lia. reflexivity.
  - pose proof (paginar_exacto 250 fuente) as H. rewrite Hlen in H.
    rewrite H by lia. reflexivity.
Qed.

Lemma C9_paging_witness :
  length fuente_250 = 250%nat
  ∧ (paginar 100 250 fuente_250
     = Some {| grupos := procesar_rows ∅ fuente_250; procesados := 250;
               paginas := [100; 100; 50]%nat |}
     ∧ paginar 250 250 fuente_250
       = Some {| grupos := procesar_rows ∅ fuente_250; procesados := 250;
                 paginas := [250%nat] |}).
Proof.
  split; [reflexivity|].
  apply (C9_paging_250_by_100 fuente_250). reflexivity.
Defined.

(** ** The consolidator *)

Section Consolidador.

Implicit Types (datos : grupo) (l : list Z).

Lemma py_min_spec l x :
  py_min x l ∈ x :: l ∧ ∀ y, y ∈ x :: l → py_min x l ≤ y.
Proof.
  unfold py_min. revert x. induction l as [|z l IH]; intros x; simpl.
  - split; [by left|]. intros y Hy. apply list_elem_of_singleton in Hy. lia.
  - destruct (IH (Z.min x z)) as [Hin Hle]. split.
    + apply elem_of_cons in Hin as [Heq|Hin].
      * rewrite Heq. destruct (Z.min_spec x z) as [[_ ->]|[_ ->]];
          [by left | right; by left].
      * right. by right.
    + intros y Hy. apply elem_of_cons in Hy as [->|Hy].
      * specialize (Hle (Z.min x z)). pose proof (Hle ltac:(by left)). lia.
      * apply elem_of_cons in Hy as [->|Hy].
        -- pose proof (Hle (Z.min x z) ltac:(by left)). lia.
        -- apply Hle. by right.
Qed.

Lemma py_max_spec l x :
  py_max x l ∈ x :: l ∧ ∀ y, y ∈ x :: l → y ≤ py_max x l.
Proof.
  unfold py_max. revert x. induction l as [|z l IH]; intros x; simpl.
  - split; [by left|]. intros y Hy. apply list_elem_of_singleton in Hy. lia.
  - destruct (IH (Z.max x z)) as [Hin Hle]. split.
    + apply elem_of_cons in Hin as [Heq|Hin].
      * rewrite Heq. destruct (Z.max_spec x z) as [[_ ->]|[_ ->]];
          [right; by left | by left].
      * right. by right.
    + intros y Hy. apply elem_of_cons in Hy as [->|Hy].
      * pose proof (Hle (Z.max x z) ltac:(by left)). lia.
      * apply elem_of_cons in Hy as [->|Hy].
        -- pose proof (Hle (Z.max x z) ltac:(by left)). lia.
        -- apply Hle. by right.
Qed.

Lemma No_Si : No ≠ Si.
Proof. done. Qed.

Lemma precio_valido_Some datos f p :
  precio_valido (hacer_columna datos f) = Some p
  ↔ precios datos !! f = Some p ∧ stocks datos !! f = Some true.
Proof.
  unfold precio_valido, hacer_columna. cbn [c_EnStock c_Precio].
  destruct (stocks datos !! f) as [[]|]; cbn [from_option id].
  - rewrite bool_decide_eq_true_2 by done. split; [done | by intros [? _]].
  - rewrite bool_decide_eq_false_2 by apply No_Si. split; [done | by intros [_ ?]].
  - rewrite bool_decide_eq_false_2 by apply No_Si. split; [done | by intros [_ ?]].
Qed.

Lemma elem_of_precios_validos datos p :
  p ∈ precios_validos datos
  ↔ ∃ f, f ∈ farmacias_conocidas
         ∧ precios datos !! f = Some p ∧ stocks datos !! f = Some true.
Proof.
  unfold precios_validos. rewrite list_elem_of_omap.
  by setoid_rewrite precio_valido_Some.
Qed.

End Consolidador.

(** C3, as stated, fails on the paged consolidator: with 5.00 in stock at
    one vendor and 4.50 out of stock at another, two vendors have a price,
    yet the minimum is 5.00 and the savings are 0, not 4.50 and 0.50. *)
Lemma C3_out_of_stock_price_is_left_out :
  precios grupo_mixto !! "DosFarma" = Some 500
  ∧ precios grupo_mixto !! "Atida" = Some 450
  ∧ Precio_Min (hacer_fila grupo_mixto) = Some 500
  ∧ Precio_Max (hacer_fila grupo_mixto) = Some 500
  ∧ Ahorro_EUR (hacer_fila grupo_mixto) = 0.
Proof. split_and!; vm_compute; reflexivity. Qed.

(** C3, amended: the prices that count are those of the known vendors whose
    stored entry is in stock.  With none, minimum and maximum are null and
    the savings are 0; otherwise minimum and maximum are the least and the
    greatest of them and the savings are their difference, which is 0 when
    there is just one. *)
Theorem C3_extrema_over_in_stock_prices (datos : grupo) :
  (∀ p : Z,
      p ∈ precios_validos datos
      ↔ ∃ f, f ∈ farmacias_conocidas
             ∧ precios datos !! f = Some p ∧ stocks datos !! f = Some true)
  ∧ match precios_validos datos with
    | [] =>
        Precio_Min (hacer_fila datos) = None
        ∧ Precio_Max (hacer_fila datos) = None
        ∧ Ahorro_EUR (hacer_fila datos) = 0
    | p :: ps =>
        ∃ m M : Z,
          Precio_Min (hacer_fila datos) = Some m
          ∧ Precio_Max (hacer_fila datos) = Some M
          ∧ m ∈ p :: ps ∧ M ∈ p :: ps
          ∧ (∀ q, q ∈ p :: ps → m ≤ q ≤ M)
          ∧ Ahorro_EUR (hacer_fila datos) = M - m
          ∧ (ps = [] → Ahorro_EUR (hacer_fila datos) = 0)
    end.
Proof.
  split; [apply elem_of_precios_validos|].
  unfold hacer_fila. destruct (precios_validos datos) as [|p ps]; [done|].
  destruct (py_min_spec ps p) as [Hmin_in Hmin].
  destruct (py_max_spec ps p) as [Hmax_in Hmax].
  exists (py_min p ps), (py_max p ps). simpl. split_and!; try done.
  - intros q Hq. split; [by apply Hmin | by apply Hmax].
  - intros ->. unfold py_max, py_min. simpl. lia.
Qed.

Section Tabla.

Implicit Types (grupos : gmap string grupo) (rows : list row) (k : string).




End Tabla.


(** ** The selection of the pandas variant *)

Section SeleccionRapida.

Import Rapida.

Example celda_in_stock_first :
  celda [mk_obs 1 "Atida" 450 false; mk_obs 2 "Atida" 500 true]
        "NAME_paracetamol" "Atida" = Some (Some 500, true)
  ∧ celda [mk_obs 2 "Atida" 500 true; mk_obs 1 "Atida" 450 false]
          "NAME_paracetamol" "Atida" = Some (Some 500, true).
Proof. split; vm_compute; reflexivity. Qed.

#[global] Instance orden_total : Total orden.
Proof.
  intros r1 r2. unfold orden, ordenb, precio_antes.
  destruct (en_stock r1), (en_stock r2), (precio r1) as [a|], (precio r2) as [b|];
    try (by left); try (by right).
  all: destruct (Z.leb_spec a b); [by left | right; apply Z.leb_le; lia].
Qed.

#[global] Instance orden_trans : Transitive orden.
Proof.
  intros r1 r2 r3. unfold orden, ordenb, precio_antes.
  destruct (en_stock r1), (en_stock r2), (en_stock r3),
    (precio r1) as [a|], (precio r2) as [b|], (precio r3) as [c|];
    try done.
  all: rewrite !Z.leb_le; lia.
Qed.

(** Two rows that each sort no later than the other have the same price
    and the same stock flag. *)
Lemma orden_antisym (r1 r2 : row) :
  orden r1 r2 → orden r2 r1 → (precio r1, en_stock r1) = (precio r2, en_stock r2).
Proof.
  unfold orden, ordenb, precio_antes.
  destruct (en_stock r1), (en_stock r2), (precio r1) as [a|], (precio r2) as [b|];
    try done.
  all: rewrite !Z.leb_le; intros; do 2 f_equal; lia.
Qed.

Lemma primera_drop_duplicates (k f : string) (df : list row)
    (vistos : list (string * string)) :
  primera k f (drop_duplicates vistos df)
  = if bool_decide ((k, f) ∈ vistos) then None else primera k f df.
Proof.
  revert vistos. induction df as [|r df IH]; intros vistos; simpl.
  - by case_bool_decide.
  - destruct (decide ((clave r, farmacia r) ∈ vistos)) as [Hin|Hin].
    + rewrite (bool_decide_eq_true_2 _ Hin), IH.
      destruct (decide ((clave r, farmacia r) = (k, f))) as [Heq|Hne].
      * rewrite Heq in Hin. by rewrite (bool_decide_eq_true_2 _ Hin).
      * by rewrite (bool_decide_eq_false_2 _ Hne).
    + rewrite (bool_decide_eq_false_2 _ Hin). simpl.
      destruct (decide ((clave r, farmacia r) = (k, f))) as [Heq|Hne].
      * rewrite (bool_decide_eq_true_2 _ Heq). rewrite Heq in Hin.
        by rewrite (bool_decide_eq_false_2 _ Hin).
      * rewrite (bool_decide_eq_false_2 _ Hne), IH.
        destruct (decide ((k, f) ∈ vistos)) as [Hv|Hv].
        -- rewrite (bool_decide_eq_true_2 _ Hv).
           rewrite bool_decide_eq_true_2; [done | by right].
        -- rewrite (bool_decide_eq_false_2 _ Hv).
           rewrite bool_decide_eq_false_2; [done|].
           intros [?|?]%elem_of_cons; congruence.
  Qed.

Lemma primera_None (k f : string) (df : list row) :
  primera k f df = None → ∀ r, r ∈ df → (clave r, farmacia r) ≠ (k, f).
Proof.
  induction df as [|r0 df IH]; simpl; intros H r Hr.
  - by apply elem_of_nil in Hr.
  - case_bool_decide; [done|].
    apply elem_of_cons in Hr as [->|Hr]; [done | by apply IH].
Qed.

(** In a sorted frame the first row of a key and pharmacy sorts no later
    than any other row of that key and pharmacy. *)
Lemma primera_sorted (k f : string) (df : list row) (r : row) :
  StronglySorted orden df → primera k f df = Some r →
  r ∈ df ∧ (clave r, farmacia r) = (k, f)
  ∧ ∀ r', r' ∈ df → (clave r', farmacia r') = (k, f) → orden r r'.
Proof.
  induction 1 as [|r0 df Hdf IH Hr0]; simpl; [done|].
  case_bool_decide as Hk.
  - intros [= ->]. split_and!; [by left | done |].
    intros r' [->|Hr']%elem_of_cons _.
    + destruct (total orden r r); done.
    + rewrite Forall_forall in Hr0. by apply Hr0.
  - intros Hr. destruct (IH Hr) as (Hin & Hkf & Hmin).
    split_and!; [by right | done |].
    intros r' [->|Hr']%elem_of_cons Hr'k; [done | by apply Hmin].
Qed.

(** The row kept for a key and a pharmacy is one of the frame's rows for
    them, and every other such row sorts no earlier: it is in stock if any
    is, and the cheapest among those of its stock status. *)
Lemma mejor_es_minimo (df : list row) (k f : string) (r : row) :
  primera k f (best_per_pharmacy df) = Some r →
  r ∈ df ∧ (clave r, farmacia r) = (k, f)
  ∧ ∀ r', r' ∈ df → (clave r', farmacia r') = (k, f) → orden r r'.
Proof.
  unfold best_per_pharmacy. rewrite primera_drop_duplicates.
  rewrite bool_decide_eq_false_2 by apply not_elem_of_nil.
  intros Hr.
  destruct (primera_sorted k f (sort_values df) r) as (Hin & Hkf & Hmin);
    [apply StronglySorted_merge_sort; apply _ | done |].
  unfold sort_values in *. split_and!; [| done |].
  - by rewrite merge_sort_Permutation in Hin.
  - intros r' Hr'. apply Hmin. by rewrite merge_sort_Permutation.
Qed.

(** The cell does not depend on the order of the rows of the frame. *)
Lemma celda_Permutation (df df' : list row) (k f : string) :
  df ≡ₚ df' → celda df k f = celda df' k f.
Proof.
  intros Hperm. unfold celda.
  assert (Hnone : ∀ d d' : list row, d ≡ₚ d' →
            primera k f (best_per_pharmacy d) = None →
            primera k f (best_per_pharmacy d') = None).
  { intros d d' Hp Hn.
    destruct (primera k f (best_per_pharmacy d')) as [r'|] eqn:Hr'; [|done].
    destruct (mejor_es_minimo _ _ _ _ Hr') as (Hin & Hkf & _).
    unfold best_per_pharmacy in Hn. rewrite primera_drop_duplicates in Hn.
    rewrite bool_decide_eq_false_2 in Hn by apply not_elem_of_nil.
    exfalso. apply (primera_None _ _ _ Hn r'); [|done].
    unfold sort_values. by rewrite merge_sort_Permutation, Hp. }
  destruct (primera k f (best_per_pharmacy df)) as [r|] eqn:Hr.
  - destruct (primera k f (best_per_pharmacy df')) as [r'|] eqn:Hr'.
    + destruct (mejor_es_minimo _ _ _ _ Hr) as (Hin & Hkf & Hmin).
      destruct (mejor_es_minimo _ _ _ _ Hr') as (Hin' & Hkf' & Hmin').
      simpl. f_equal. apply orden_antisym.
      * apply Hmin; [by rewrite Hperm | done].
      * apply Hmin'; [by rewrite <- Hperm | done].
    + by rewrite (Hnone df' df) in Hr.
  - by rewrite (Hnone df df').
Qed.

End SeleccionRapida.

(** * Further properties *)

(** ** [clean_name] and [is_valid_ean] *)

Section Normalizacion.

Local Abbreviation noesp c := (Texto.isspace c = false).

Lemma clean_name_chars (s : string) :
  Texto.chars (clean_name s)
  = Texto.join [" "%char]
      (Texto.split
         (map blanquear
            (map Texto.lower (concat (map Texto.nfkd_ascii (Texto.chars s)))))).
Proof.
  unfold clean_name, Texto.chars. by rewrite list_ascii_of_string_of_list_ascii.
Qed.

(** What [split] returns: runs that are not empty, made of characters of
    the input that are not whitespace. *)
Lemma split_go_words (l cur : list ascii) (P : ascii → Prop) :
  Forall (λ c, noesp c ∧ P c) cur →
  Forall (λ c, noesp c → P c) l →
  Forall (λ w, w ≠ [] ∧ Forall (λ c, noesp c ∧ P c) w) (Texto.split_go cur l).
Proof.
  revert cur. induction l as [|c l IH]; intros cur Hcur Hl; simpl.
  - destruct cur as [|c0 cur]; [constructor|].
    constructor; [|constructor]. split.
    + intros H. apply (f_equal (@length ascii)) in H.
      rewrite length_rev in H. done.
    + by apply Forall_rev.
  - inversion Hl as [|? ? Hc Hl']; subst.
    destruct (Texto.isspace c) eqn:Hsp.
    + destruct cur as [|c0 cur]; [by apply IH|].
      constructor; [|by apply IH]. split.
      * intros H. apply (f_equal (@length ascii)) in H.
        rewrite length_rev in H. done.
      * by apply Forall_rev.
    + apply IH; [|done]. constructor; [|done]. split; [done | by apply Hc].
Qed.

Lemma nfkd_ascii_is_ascii (c : ascii) :
  forallb (λ y, (Texto.code y <? 128)%N) (Texto.nfkd_ascii c) = true.
Proof. destruct c as [[] [] [] [] [] [] [] []]; reflexivity. Qed.

Lemma blanquear_lower_palabra (y : ascii) :
  (Texto.code y <? 128)%N = true →
  Texto.isspace (blanquear (Texto.lower y)) = false →
  palabra_char (blanquear (Texto.lower y)) = true.
Proof. destruct y as [[] [] [] [] [] [] [] []]; vm_compute; congruence. Qed.

Lemma limpio_chars (s : string) :
  Forall (λ c, noesp c → palabra_char c = true)
    (map blanquear
       (map Texto.lower (concat (map Texto.nfkd_ascii (Texto.chars s))))).
Proof.
  rewrite Forall_forall. intros c Hc.
  apply list_elem_of_fmap in Hc as (c1 & -> & Hc1).
  apply list_elem_of_fmap in Hc1 as (y & -> & Hy).
  apply list_elem_of_In, in_concat in Hy as (ys & Hys%list_elem_of_In & Hy%list_elem_of_In).
  apply list_elem_of_fmap in Hys as (x & -> & _).
  apply blanquear_lower_palabra.
  pose proof (nfkd_ascii_is_ascii x) as Hx.
  rewrite forallb_forall in Hx. apply Hx. by apply list_elem_of_In.
Qed.

End Normalizacion.

(** X1: a normalised name is a list of words joined by single blanks, each
    word non-empty and made of lower-case ASCII letters and digits only: no
    leading, trailing or double blank, no capital, accent or punctuation. *)
Theorem X1_clean_name_shape (s : string) :
  ∃ ws : list (list ascii),
    Texto.chars (clean_name s) = Texto.join [" "%char] ws
    ∧ Forall (λ w, w ≠ [] ∧ Forall (λ c, palabra_char c = true) w) ws.
Proof.
  eexists. split; [apply clean_name_chars|].
  eapply Forall_impl.
  - apply (split_go_words _ [] (λ c, palabra_char c = true)); [constructor|].
    apply limpio_chars.
  - intros w [Hne Hw]. split; [done|].
    eapply Forall_impl; [exact Hw|]. by intros c [_ ?].
Qed.

Section Normalizacion2.

Local Abbreviation noesp c := (Texto.isspace c = false).
Local Abbreviation espacio c := (Texto.isspace c = true).

Lemma clean_name_words (s : string) :
  ∃ ws : list (list ascii),
    Texto.chars (clean_name s) = Texto.join [" "%char] ws
    ∧ Forall (λ w, w ≠ [] ∧ Forall (λ c, palabra_char c = true) w) ws.
Proof.
  eexists. split; [apply clean_name_chars|].
  eapply Forall_impl.
  - apply (split_go_words _ [] (λ c, palabra_char c = true)); [constructor|].
    apply limpio_chars.
  - intros w [Hne Hw]. split; [done|].
    eapply Forall_impl; [exact Hw|]. by intros c [_ ?].
Qed.

Lemma palabra_char_fixed (c : ascii) :
  palabra_char c = true ∨ c = " "%char →
  Texto.nfkd_ascii c = [c] ∧ Texto.lower c = c ∧ blanquear c = c.
Proof.
  destruct c as [[] [] [] [] [] [] [] []]; vm_compute;
    (intros [H|H]; [try discriminate H | try discriminate H]); done.
Qed.

Lemma palabra_char_noesp (c : ascii) : palabra_char c = true → noesp c.
Proof. destruct c as [[] [] [] [] [] [] [] []]; vm_compute; congruence. Qed.

Lemma split_go_run (w rest cur : list ascii) :
  Forall (λ c, noesp c) w →
  Texto.split_go cur (w ++ rest) = Texto.split_go (rev w ++ cur) rest.
Proof.
  revert cur. induction w as [|c w IH]; intros cur Hw; [done|].
  inversion Hw as [|? ? Hc Hw']; subst. simpl. rewrite Hc, IH by done.
  by rewrite <- app_assoc.
Qed.

(** Splitting what [join] made of words without whitespace gives the
    words back. *)
Lemma split_join (ws : list (list ascii)) :
  Forall (λ w, w ≠ [] ∧ Forall (λ c, noesp c) w) ws →
  Texto.split (Texto.join [" "%char] ws) = ws.
Proof.
  unfold Texto.split. induction 1 as [|w ws [Hne Hw] Hws IH]; [done|].
  assert (Hrev : ∀ rest, Texto.split_go [] (w ++ rest)
                         = Texto.split_go (rev w) rest).
  { intros rest. by rewrite split_go_run, app_nil_r. }
  destruct ws as [|w2 ws].
  - simpl. rewrite <- (app_nil_r w) at 1. rewrite Hrev. simpl.
    destruct (rev w) as [|c0 rw] eqn:Hrw.
    + apply (f_equal (@length ascii)) in Hrw. rewrite length_rev in Hrw.
      by destruct w.
    + by rewrite <- Hrw, rev_involutive.
  - change (Texto.join [" "%char] (w :: w2 :: ws))
      with (w ++ " "%char :: Texto.join [" "%char] (w2 :: ws)).
    rewrite Hrev.
    change (Texto.split_go (rev w) (" "%char :: Texto.join [" "%char] (w2 :: ws)))
      with (match rev w with
            | [] => Texto.split_go [] (Texto.join [" "%char] (w2 :: ws))
            | _ => rev (rev w) :: Texto.split_go [] (Texto.join [" "%char] (w2 :: ws))
            end).
    destruct (rev w) as [|c0 rw] eqn:Hrw.
    + apply (f_equal (@length ascii)) in Hrw. rewrite length_rev in Hrw.
      by destruct w.
    + by rewrite <- Hrw, rev_involutive, IH.
Qed.

Lemma join_chars (ws : list (list ascii)) (P : ascii → Prop) :
  P " "%char → Forall (Forall P) ws → Forall P (Texto.join [" "%char] ws).
Proof.
  intros Hsp. induction 1 as [|w ws Hw Hws IH]; [constructor|].
  destruct ws as [|w2 ws]; [done|].
  change (Texto.join [" "%char] (w :: w2 :: ws))
    with (w ++ " "%char :: Texto.join [" "%char] (w2 :: ws)).
  apply Forall_app. split; [done|]. by constructor.
Qed.

Lemma concat_singletons (l : list ascii) :
  Forall (λ c, Texto.nfkd_ascii c = [c]) l →
  concat (map Texto.nfkd_ascii l) = l.
Proof. induction 1 as [|c l Hc _ IH]; [done|]. simpl. by rewrite Hc, IH. Qed.

Lemma map_fixed {A} (f : A → A) (l : list A) :
  Forall (λ c, f c = c) l → map f l = l.
Proof. induction 1 as [|c l Hc _ IH]; [done|]. simpl. by rewrite Hc, IH. Qed.

Lemma split_go_spaces (l : list ascii) :
  Forall (λ c, espacio c) l → Texto.split_go [] l = [].
Proof. induction 1 as [|c l Hc _ IH]; [done|]. simpl. by rewrite Hc. Qed.

Lemma nfkd_lower_lower (c : ascii) :
  map Texto.lower (Texto.nfkd_ascii (Texto.lower c))
  = map Texto.lower (Texto.nfkd_ascii c).
Proof. destruct c as [[] [] [] [] [] [] [] []]; reflexivity. Qed.

(** An ASCII character that is not alphanumeric is whitespace once
    lower-cased and blanked. *)
Lemma ascii_no_alnum_blank (y : ascii) :
  (Texto.code y <? 128)%N = true →
  Texto.isalnum y = false →
  Texto.isspace (blanquear (Texto.lower y)) = true.
Proof. destruct y as [[] [] [] [] [] [] [] []]; vm_compute; congruence. Qed.

End Normalizacion2.

(** X2: [clean_name] is idempotent. *)
Theorem X2_clean_name_idempotent (s : string) :
  clean_name (clean_name s) = clean_name s.
Proof.
  destruct (clean_name_words s) as (ws & Hchars & Hws).
  assert (Hall : Forall (λ c, palabra_char c = true ∨ c = " "%char)
                   (Texto.chars (clean_name s))).
  { rewrite Hchars. apply join_chars; [by right|].
    eapply Forall_impl; [exact Hws|]. intros w [_ Hw].
    eapply Forall_impl; [exact Hw|]. intros c Hc. by left. }
  rewrite <- (string_of_list_ascii_of_string (clean_name s)) at 2.
  unfold clean_name at 1. f_equal.
  fold (Texto.chars (clean_name s)). fold blanquear.
  assert (H1 : concat (map Texto.nfkd_ascii (Texto.chars (clean_name s)))
               = Texto.chars (clean_name s)).
  { apply concat_singletons. eapply Forall_impl; [exact Hall|]. intros c Hc.
    by destruct (palabra_char_fixed c Hc) as (? & _ & _). }
  assert (H2 : map Texto.lower (Texto.chars (clean_name s))
               = Texto.chars (clean_name s)).
  { apply map_fixed. eapply Forall_impl; [exact Hall|]. intros c Hc.
    by destruct (palabra_char_fixed c Hc) as (_ & ? & _). }
  assert (H3 : map blanquear (Texto.chars (clean_name s))
               = Texto.chars (clean_name s)).
  { apply map_fixed. eapply Forall_impl; [exact Hall|]. intros c Hc.
    by destruct (palabra_char_fixed c Hc) as (_ & _ & ?). }
  rewrite H1, H2, H3, Hchars, split_join; [done|].
  eapply Forall_impl; [exact Hws|]. intros w [Hne Hw]. split; [done|].
  eapply Forall_impl; [exact Hw|]. apply palabra_char_noesp.
Qed.

(** X3: [clean_name] does not see the case of letters: a name and its
    lower-cased form normalise to the same string. *)
Theorem X3_clean_name_ignores_case (s : string) :
  clean_name (str_lower s) = clean_name s.
Proof.
  unfold clean_name, str_lower, Texto.chars.
  rewrite list_ascii_of_string_of_list_ascii. do 4 f_equal.
  induction (list_ascii_of_string s) as [|c l IH]; [done|].
  simpl. rewrite !map_app, IH. f_equal. apply nfkd_lower_lower.
Qed.

(** X4: a name whose NFKD form encoded to ASCII, the string the first
    step of [clean_name] leaves, has no alphanumeric character normalises
    to the empty string, so without a valid EAN every such record lands in
    the one group of key ["NAME_"].  The test is on that form and not on
    the name itself: NFKD can turn a sign that is not alphanumeric into
    letters. *)
Theorem X4_clean_name_without_alnum (s : string) (ean : option string) :
  Forall (λ y, Texto.isalnum y = false)
    (concat (map Texto.nfkd_ascii (Texto.chars s))) →
  is_valid_ean ean = false →
  clean_name s = "" ∧ match_key_of ean s = ("NAME_", false).
Proof.
  intros Hs Hean.
  assert (Hclean : clean_name s = "").
  { unfold clean_name. fold blanquear.
    change (Texto.split ?l) with (Texto.split_go [] l).
    rewrite split_go_spaces; [done|].
    rewrite Forall_forall. intros c Hc.
    apply list_elem_of_fmap in Hc as (c1 & -> & Hc1).
    apply list_elem_of_fmap in Hc1 as (y & -> & Hy).
    rewrite Forall_forall in Hs. apply ascii_no_alnum_blank; [|by apply Hs].
    apply list_elem_of_In, in_concat in Hy
      as (ys & Hys%list_elem_of_In & Hy%list_elem_of_In).
    apply list_elem_of_fmap in Hys as (x & -> & _).
    pose proof (nfkd_ascii_is_ascii x) as Hx.
    rewrite forallb_forall in Hx. apply Hx. by apply list_elem_of_In. }
  split; [done|]. unfold match_key_of. by rewrite Hean, Hclean.
Qed.

Lemma X4_clean_name_without_alnum_witness :
  Forall (λ y, Texto.isalnum y = false)
    (concat (map Texto.nfkd_ascii (Texto.chars " -- / ()")))
  ∧ is_valid_ean (Some "12-45") = false
  ∧ clean_name " -- / ()" = ""
  ∧ match_key_of (Some "12-45") " -- / ()" = ("NAME_", false).
Proof.
  assert (H1 : Forall (λ y, Texto.isalnum y = false)
                 (concat (map Texto.nfkd_ascii (Texto.chars " -- / ()")))).
  { repeat constructor. }
  assert (H2 : is_valid_ean (Some "12-45") = false) by reflexivity.
  split_and!; [done | done | ..];
    apply (X4_clean_name_without_alnum " -- / ()" (Some "12-45") H1 H2).
Defined.

Section Ean2.

Local Abbreviation espacio c := (Texto.isspace c = true).

Lemma lstrip_spaces (l : list ascii) :
  Forall (λ c, espacio c) l → Texto.lstrip l = [].
Proof. induction 1 as [|c l Hc _ IH]; [done|]. simpl. by rewrite Hc. Qed.

Lemma lstrip_app (l m : list ascii) :
  Texto.lstrip (l ++ m)
  = match Texto.lstrip l with
    | [] => Texto.lstrip m
    | _ => Texto.lstrip l ++ m
    end.
Proof.
  induction l as [|c l IH]; [done|]. simpl.
  by destruct (Texto.isspace c).
Qed.

(** Whitespace around a string does not survive [strip]. *)
Lemma strip_pad (izq l der : list ascii) :
  Forall (λ c, espacio c) izq → Forall (λ c, espacio c) der →
  Texto.strip (izq ++ l ++ der) = Texto.strip l.
Proof.
  intros Hizq Hder. unfold Texto.strip.
  rewrite lstrip_spaces_app, lstrip_app by done.
  destruct (Texto.lstrip l) as [|c l'] eqn:Hl.
  - by rewrite (lstrip_spaces der).
  - rewrite rev_app_distr, lstrip_spaces_app; [done|]. by apply Forall_rev.
Qed.

Lemma valid_ean_first_char (e : string) :
  is_valid_ean (Some e) = true →
  ∃ c t, Texto.chars e = c :: t ∧ (Texto.isspace c = true ∨ Texto.isdigit c = true).
Proof.
  cbn [is_valid_ean]. rewrite !andb_true_iff, str_isdigit_Forall.
  intros [[Hne Hd] _].
  destruct (strip_split (Texto.chars e)) as (izq & der & He & Hizq & _).
  destruct izq as [|c izq].
  - destruct (Texto.strip (Texto.chars e)) as [|c d]; [done|].
    exists c, (d ++ der). split; [done|]. right. by inversion Hd.
  - exists c, (izq ++ Texto.strip (Texto.chars e) ++ der). split; [done|].
    left. by inversion Hizq.
Qed.

End Ean2.

(** X5: whitespace around an EAN never changes whether [is_valid_ean]
    accepts it, but the match key of an accepted EAN is the unstripped
    string: two records whose valid EANs differ only in surrounding
    whitespace get different match keys. *)
Theorem X5_padding_keeps_validity_changes_key
    (e : string) (izq der : list ascii) (n1 n2 : string) :
  Forall (λ c, Texto.isspace c = true) izq →
  Forall (λ c, Texto.isspace c = true) der →
  is_valid_ean (Some (string_of_list_ascii (izq ++ Texto.chars e ++ der)))
  = is_valid_ean (Some e)
  ∧ (is_valid_ean (Some e) = true → izq ++ der ≠ [] →
     (match_key_of (Some (string_of_list_ascii (izq ++ Texto.chars e ++ der))) n1).1
     ≠ (match_key_of (Some e) n2).1).
Proof.
  intros Hizq Hder.
  assert (Hv : is_valid_ean
                 (Some (string_of_list_ascii (izq ++ Texto.chars e ++ der)))
               = is_valid_ean (Some e)).
  { cbn [is_valid_ean].
    assert (Hc : Texto.chars (string_of_list_ascii (izq ++ Texto.chars e ++ der))
                 = izq ++ Texto.chars e ++ der)
      by apply list_ascii_of_string_of_list_ascii.
    by rewrite !Hc, strip_pad. }
  split; [done|]. intros He Hpad. unfold match_key_of.
  rewrite Hv, He. simpl. intros Heq.
  apply (f_equal list_ascii_of_string) in Heq.
  rewrite list_ascii_of_string_of_list_ascii in Heq.
  apply (f_equal (@length ascii)) in Heq.
  unfold Texto.chars in Heq. rewrite !length_app in Heq.
  destruct izq, der; simpl in *; try done; lia.
Qed.

Lemma X5_padding_witness :
  Forall (λ c, Texto.isspace c = true) (Texto.chars " ")
  ∧ Forall (λ c, Texto.isspace c = true) []
  ∧ is_valid_ean (Some (string_of_list_ascii
                          (Texto.chars " " ++ Texto.chars "8412345678901" ++ [])))
    = is_valid_ean (Some "8412345678901").
Proof.
  assert (H1 : Forall (λ c, Texto.isspace c = true) (Texto.chars " "))
    by repeat constructor.
  assert (H2 : Forall (λ c, Texto.isspace c = true) []) by constructor.
  split_and!; [done | done |].
  apply (X5_padding_keeps_validity_changes_key "8412345678901"
           (Texto.chars " ") [] "a" "b" H1 H2).
Defined.

(** X6: the keys of records grouped by EAN and the keys of records
    grouped by name never coincide: a valid EAN never starts with the
    ["NAME_"] prefix of the name keys. *)
Theorem X6_ean_and_name_keys_disjoint (e1 e2 : option string) (n1 n2 : string) :
  (match_key_of e1 n1).2 = true →
  (match_key_of e2 n2).2 = false →
  (match_key_of e1 n1).1 ≠ (match_key_of e2 n2).1.
Proof.
  unfold match_key_of.
  destruct (is_valid_ean e1) eqn:H1; [|done].
  destruct (is_valid_ean e2) eqn:H2; [done|]. simpl. intros _ _.
  destruct e1 as [e|]; [|done]. simpl. intros ->.
  destruct (valid_ean_first_char _ H1) as (c & t & Hc & Hsd).
  simpl in Hc. injection Hc as <- _.
  by destruct Hsd.
Qed.

Lemma X6_ean_and_name_keys_witness :
  (match_key_of (Some "8412345678901") "Crema X").2 = true
  ∧ (match_key_of None "8412345678901").2 = false
  ∧ (match_key_of (Some "8412345678901") "Crema X").1
    ≠ (match_key_of None "8412345678901").1.
Proof.
  split_and!; [reflexivity | reflexivity |].
  apply (X6_ean_and_name_keys_disjoint (Some "8412345678901") None
           "Crema X" "8412345678901"); reflexivity.
Defined.

(** ** The aggregator over a whole run *)

Section Corrida.

Implicit Types (grupos : gmap string grupo) (g : grupo) (r : row)
               (rows : list row) (k f : string).

(** The group of a key after a run is the fold of the updates of its own
    rows over the group it had before. *)
Lemma obtener_procesar_rows rows grupos k :
  obtener (procesar_rows grupos rows) k
  = foldl (λ g r, actualizar r g) (obtener grupos k) (rows_de k rows).
Proof.
  revert grupos. induction rows as [|r rows IH]; intros grupos; [done|].
  simpl. rewrite IH. unfold rows_de.
  destruct (decide (clave r = k)) as [<-|Hk].
  - rewrite filter_cons_True by done. simpl.
    by rewrite obtener_procesar_row.
  - rewrite filter_cons_False by done.
    rewrite obtener_procesar_row_ne; [done | congruence].
Qed.

Lemma elem_of_rows_de k rows r : r ∈ rows_de k rows ↔ r ∈ rows ∧ clave r = k.
Proof.
  unfold rows_de. rewrite list_elem_of_filter. split; intros [? ?]; by split.
Qed.

Lemma nombre_ref_actualizar r g :
  nombre_ref (actualizar r g) = elegir_nombre (nombre_ref g) (nombre r).
Proof.
  unfold actualizar.
  rewrite guardar_farmacia_nombre_ref, guardar_ean_nombre_ref.
  unfold guardar_nombre, elegir_nombre. by case_match.
Qed.

Lemma nombre_ref_fold (rs : list row) g :
  nombre_ref (foldl (λ g r, actualizar r g) g rs)
  = foldl elegir_nombre (nombre_ref g) (map nombre rs).
Proof.
  revert g. induction rs as [|r rs IH]; intros g; [done|].
  simpl. by rewrite IH, nombre_ref_actualizar.
Qed.

Lemma length_0_empty (s : string) : String.length s = 0%nat → s = "".
Proof. by destruct s. Qed.

(** Folding the name test from the empty name picks the first of the
    longest names. *)
Lemma elegir_nombre_fold (names : list string) :
  names ≠ [] →
  ∃ l1 l2,
    names = l1 ++ foldl elegir_nombre "" names :: l2
    ∧ Forall (λ n, (String.length n
                    < String.length (foldl elegir_nombre "" names))%nat) l1
    ∧ Forall (λ n, (String.length n
                    ≤ String.length (foldl elegir_nombre "" names))%nat) l2.
Proof.
  induction names as [|n ns IH] using rev_ind; [done|]. intros _.
  rewrite foldl_app. simpl.
  destruct ns as [|n0 ns0].
  { simpl. exists [], []. by split_and!. }
  destruct IH as (l1 & l2 & Hns & Hl1 & Hl2); [done|].
  set (a := foldl elegir_nombre "" (n0 :: ns0)) in *.
  assert (Hkeep : (String.length n ≤ String.length a)%nat →
            ∃ l1' l2', (n0 :: ns0) ++ [n] = l1' ++ a :: l2'
              ∧ Forall (λ m, (String.length m < String.length a)%nat) l1'
              ∧ Forall (λ m, (String.length m ≤ String.length a)%nat) l2').
  { intros Hle. exists l1, (l2 ++ [n]). split_and!; [| done |].
    - rewrite Hns at 1. by rewrite <- app_assoc.
    - apply Forall_app. split; [done|]. by constructor. }
  unfold elegir_nombre.
  destruct (Nat.ltb_spec (String.length a) (String.length n)) as [Hlt|Hge].
  - rewrite orb_true_r. exists (n0 :: ns0), []. split_and!; [done | | constructor].
    rewrite Hns. apply Forall_app. split.
    + eapply Forall_impl; [exact Hl1|]. simpl. lia.
    + constructor; [lia|]. eapply Forall_impl; [exact Hl2|]. simpl. lia.
  - rewrite orb_false_r. case_bool_decide as Ha; [|by apply Hkeep].
    assert (n = a) as ->; [|by apply Hkeep].
    rewrite Ha in Hge |- *. apply length_0_empty. simpl in Hge. lia.
Qed.

End Corrida.

(** X7: the reference name of a match key, after a run from the empty
    dictionary, is the first of the longest names among the rows of that
    key: every earlier name is strictly shorter, no later name is longer. *)
Theorem X7_reference_name_is_first_longest (rows : list row) (k : string) :
  match map nombre (rows_de k rows) with
  | [] => nombre_ref (obtener (procesar_rows ∅ rows) k) = ""
  | names =>
      ∃ l1 l2,
        names = l1 ++ nombre_ref (obtener (procesar_rows ∅ rows) k) :: l2
        ∧ Forall (λ n, (String.length n
             < String.length (nombre_ref (obtener (procesar_rows ∅ rows) k)))%nat) l1
        ∧ Forall (λ n, (String.length n
             ≤ String.length (nombre_ref (obtener (procesar_rows ∅ rows) k)))%nat) l2
  end.
Proof.
  rewrite obtener_procesar_rows, nombre_ref_fold.
  change (nombre_ref (obtener ∅ k)) with "".
  destruct (map nombre (rows_de k rows)) as [|n names] eqn:Hn; [done|].
  by apply elegir_nombre_fold.
Qed.

(** X8: the group of a match key depends only on the rows of that key
    and their order: two runs whose rows of key [k] are the same, however
    they are interleaved with rows of other keys, end with the same group. *)
Theorem X8_group_depends_on_own_rows (rows rows' : list row) (k : string) :
  rows_de k rows = rows_de k rows' →
  obtener (procesar_rows ∅ rows) k = obtener (procesar_rows ∅ rows') k.
Proof. intros H. by rewrite !obtener_procesar_rows, H. Qed.

Lemma X8_group_depends_on_own_rows_witness :
  rows_de "NAME_paracetamol"
    [mk_obs 1 "Atida" 450 false; row_sin_url; mk_obs 2 "Atida" 500 true]
  = rows_de "NAME_paracetamol"
      [row_sin_precio; mk_obs 1 "Atida" 450 false; mk_obs 2 "Atida" 500 true]
  ∧ obtener (procesar_rows ∅
      [mk_obs 1 "Atida" 450 false; row_sin_url; mk_obs 2 "Atida" 500 true])
      "NAME_paracetamol"
    = obtener (procesar_rows ∅
        [row_sin_precio; mk_obs 1 "Atida" 450 false; mk_obs 2 "Atida" 500 true])
        "NAME_paracetamol".
Proof.
  assert (H : rows_de "NAME_paracetamol"
                [mk_obs 1 "Atida" 450 false; row_sin_url; mk_obs 2 "Atida" 500 true]
              = rows_de "NAME_paracetamol"
                  [row_sin_precio; mk_obs 1 "Atida" 450 false;
                   mk_obs 2 "Atida" 500 true])
    by (vm_compute; reflexivity).
  split; [exact H|].
  exact (X8_group_depends_on_own_rows _ _ _ H).
Defined.

Section Entradas.

Implicit Types (grupos : gmap string grupo) (g : grupo) (r : row)
               (rows rs : list row) (k f : string).

Local Abbreviation act := (λ g r, actualizar r g).

Lemma guardar_farmacia_desconocida r g :
  farmacia r ∉ farmacias_conocidas → guardar_farmacia r g = g.
Proof. intros H. unfold guardar_farmacia. by rewrite bool_decide_eq_false_2. Qed.

Lemma actualizar_entrada r g f :
  entrada_grupo (actualizar r g) f = entrada_grupo g f
  ∨ ∃ p, precio r = Some p ∧ farmacia r = f ∧ f ∈ farmacias_conocidas
         ∧ entrada_grupo (actualizar r g) f
           = (Some p, Some (url r), Some (en_stock r))
         ∧ ∀ pa, precios g !! f = Some pa → en_stock r = true ∧ p < pa.
Proof.
  unfold actualizar. set (g1 := guardar_ean _ _ _).
  assert (Hg1 : precios g1 = precios g ∧ urls g1 = urls g ∧ stocks g1 = stocks g).
  { unfold g1.
    destruct (guardar_ean_dicts (match_key_of (ean r) (nombre r)).2 (ean r)
                (guardar_nombre (nombre r) g)) as (-> & -> & ->).
    by destruct (guardar_nombre_dicts (nombre r) g) as (-> & -> & -> & _). }
  destruct Hg1 as (Hp & Hu & Hs).
  assert (He : entrada_grupo g1 f = entrada_grupo g f).
  { unfold entrada_grupo. by rewrite Hp, Hu, Hs. }
  destruct (decide (farmacia r ∈ farmacias_conocidas)) as [Hin|Hout].
  - destruct (guardar_farmacia_entrada r g1 f) as [Heq|(p & Hpr & -> & Hent & Hlt)].
    + left. congruence.
    + right. exists p. split_and!; try done.
      intros pa Hpa. apply Hlt. by rewrite Hp.
  - left. by rewrite guardar_farmacia_desconocida.
Qed.

(** Where a stored entry comes from. *)
Lemma entrada_fold rs g f :
  entrada_grupo (foldl act g rs) f = entrada_grupo g f
  ∨ ∃ r p, r ∈ rs ∧ precio r = Some p ∧ farmacia r = f
           ∧ f ∈ farmacias_conocidas
           ∧ entrada_grupo (foldl act g rs) f
             = (Some p, Some (url r), Some (en_stock r)).
Proof.
  induction rs as [|r rs IH] using rev_ind; [by left|].
  rewrite foldl_app. simpl.
  destruct (actualizar_entrada r (foldl act g rs) f)
    as [Heq|(p & Hp & Hf & Hin & Hent & _)].
  - rewrite Heq. destruct IH as [IH|(r' & p' & Hr' & Hrest)]; [by left|].
    right. exists r', p'. split; [|done]. apply elem_of_app. by left.
  - right. exists r, p. split_and!; try done.
    apply elem_of_app. right. by apply list_elem_of_singleton.
Qed.

Lemma precio_persiste r g f :
  is_Some (precios g !! f) → is_Some (precios (actualizar r g) !! f).
Proof.
  intros Hg.
  destruct (actualizar_entrada r g f) as [Heq|(p & _ & _ & _ & Hent & _)].
  - unfold entrada_grupo in Heq. by injection Heq as -> _ _.
  - unfold entrada_grupo in Hent. injection Hent as -> _ _. by eexists.
Qed.

Lemma precio_persiste_fold rs g f :
  is_Some (precios g !! f) → is_Some (precios (foldl act g rs) !! f).
Proof.
  revert g. induction rs as [|r rs IH]; intros g Hg; [done|].
  simpl. by apply IH, precio_persiste.
Qed.

(** A priced row of a known pharmacy leaves an entry, and the price of the
    entry is at most the row's price when the row is in stock. *)
Lemma precio_creado r g q :
  farmacia r ∈ farmacias_conocidas → precio r = Some q →
  ∃ p, precios (actualizar r g) !! farmacia r = Some p
       ∧ (en_stock r = true → p ≤ q).
Proof.
  intros Hin Hq. unfold actualizar. set (g1 := guardar_ean _ _ _).
  unfold guardar_farmacia. rewrite bool_decide_eq_true_2, Hq by done.
  destruct (precios g1 !! farmacia r) as [pa|] eqn:Hpa.
  - destruct (en_stock r) eqn:Hs; simpl.
    + destruct (Z.ltb_spec q pa); simpl.
      * exists q. rewrite lookup_insert_eq. split; [done | lia].
      * exists pa. split; [done | lia].
    + exists pa. by split.
  - simpl. exists q. rewrite lookup_insert_eq. split; [done | lia].
Qed.

Lemma precio_mono r g f p :
  precios g !! f = Some p →
  ∃ p', precios (actualizar r g) !! f = Some p' ∧ p' ≤ p.
Proof.
  intros Hp.
  destruct (actualizar_entrada r g f) as [Heq|(p' & _ & _ & _ & Hent & Hlt)].
  - exists p. split; [|lia]. unfold entrada_grupo in Heq.
    injection Heq as -> _ _. done.
  - exists p'. unfold entrada_grupo in Hent. injection Hent as -> _ _.
    split; [done|]. destruct (Hlt p Hp). lia.
Qed.

Lemma precio_mono_fold rs g f p :
  precios g !! f = Some p →
  ∃ p', precios (foldl act g rs) !! f = Some p' ∧ p' ≤ p.
Proof.
  revert g p. induction rs as [|r rs IH]; intros g p Hp.
  - exists p. split; [done | lia].
  - simpl. destruct (precio_mono r g f p Hp) as (p1 & Hp1 & Hle1).
    destruct (IH _ _ Hp1) as (p2 & Hp2 & Hle2). exists p2. split; [done | lia].
Qed.

Lemma precio_fold_bound rs g r q :
  r ∈ rs → farmacia r ∈ farmacias_conocidas → precio r = Some q →
  ∃ p, precios (foldl act g rs) !! farmacia r = Some p
       ∧ (en_stock r = true → p ≤ q).
Proof.
  intros Hr Hin Hq. apply list_elem_of_split in Hr as (l1 & l2 & ->).
  rewrite foldl_app. simpl.
  destruct (precio_creado r (foldl act g l1) q Hin Hq) as (p1 & Hp1 & Hle1).
  destruct (precio_mono_fold l2 _ _ _ Hp1) as (p2 & Hp2 & Hle2).
  exists p2. split; [done|]. intros Hs. specialize (Hle1 Hs). lia.
Qed.

(** An entry in stock stays in stock. *)
Lemma en_stock_fold rs g f p :
  precios g !! f = Some p → stocks g !! f = Some true →
  stocks (foldl act g rs) !! f = Some true.
Proof.
  revert g p. induction rs as [|r rs IH]; intros g p Hp Hs; [done|].
  simpl. destruct (actualizar_entrada r g f) as [Heq|(p' & _ & _ & _ & Hent & Hlt)].
  - unfold entrada_grupo in Heq. injection Heq as Hp' _ Hs'.
    apply (IH _ p); congruence.
  - unfold entrada_grupo in Hent. injection Hent as Hp' _ Hs'.
    destruct (Hlt p Hp) as [Htrue _].
    apply (IH _ p'); [done|]. by rewrite Hs', Htrue.
Qed.

Lemma entrada_run rows k f :
  entrada (procesar_rows ∅ rows) k f = (None, None, None)
  ∨ ∃ r p, r ∈ rows ∧ clave r = k ∧ farmacia r = f
           ∧ f ∈ farmacias_conocidas ∧ precio r = Some p
           ∧ entrada (procesar_rows ∅ rows) k f
             = (Some p, Some (url r), Some (en_stock r)).
Proof.
  change (entrada (procesar_rows ∅ rows) k f)
    with (entrada_grupo (obtener (procesar_rows ∅ rows) k) f).
  rewrite obtener_procesar_rows.
  destruct (entrada_fold (rows_de k rows) (obtener ∅ k) f)
    as [Heq|(r & p & Hr & Hp & Hf & Hin & Hent)].
  - left. by rewrite Heq.
  - right. apply elem_of_rows_de in Hr as [Hr Hk]. exists r, p. by split_and!.
Qed.

Lemma precio_run_bound rows k r q :
  r ∈ rows → clave r = k → farmacia r ∈ farmacias_conocidas →
  precio r = Some q →
  ∃ p, precios (obtener (procesar_rows ∅ rows) k) !! farmacia r = Some p
       ∧ (en_stock r = true → p ≤ q).
Proof.
  intros Hr Hk Hin Hq. rewrite obtener_procesar_rows.
  apply precio_fold_bound; [|done..]. by apply elem_of_rows_de.
Qed.

End Entradas.

(** X9: every stored entry is complete and is one observation: the price,
    URL and stock flag kept for a match key and a pharmacy are either all
    absent, or all three those of one row read for that key and pharmacy,
    a row with a price and of a known pharmacy. *)
Theorem X9_entry_is_one_observation (rows : list row) (k f : string) :
  entrada (procesar_rows ∅ rows) k f = (None, None, None)
  ∨ ∃ r p, r ∈ rows ∧ clave r = k ∧ farmacia r = f
           ∧ f ∈ farmacias_conocidas ∧ precio r = Some p
           ∧ entrada (procesar_rows ∅ rows) k f
             = (Some p, Some (url r), Some (en_stock r)).
Proof. apply entrada_run. Qed.

(** X10: a pharmacy has an entry under a match key exactly when a row of
    that key and pharmacy with a price was read and the pharmacy is a
    known one. *)
Theorem X10_entry_exists_iff_priced_row (rows : list row) (k f : string) :
  is_Some (precios (obtener (procesar_rows ∅ rows) k) !! f)
  ↔ ∃ r, r ∈ rows ∧ clave r = k ∧ farmacia r = f
         ∧ f ∈ farmacias_conocidas ∧ is_Some (precio r).
Proof.
  split.
  - intros [p Hp].
    destruct (entrada_run rows k f) as [Hnone|(r & q & Hr & Hk & Hf & Hin & Hq & _)].
    + unfold entrada in Hnone. injection Hnone as Hnone _ _. congruence.
    + exists r. split_and!; first [done | by eexists].
  - intros (r & Hr & Hk & <- & Hin & [q Hq]).
    destruct (precio_run_bound rows k r q Hr Hk Hin Hq) as (p & Hp & _).
    by eexists.
Qed.

(** X11: the price kept for a match key and a known pharmacy is at most
    the price of every in-stock row read for that key and pharmacy. *)
Theorem X11_stored_price_below_in_stock_prices
    (rows : list row) (k : string) (r : row) (q : Z) :
  r ∈ rows → clave r = k → farmacia r ∈ farmacias_conocidas →
  precio r = Some q → en_stock r = true →
  ∃ p, precios (obtener (procesar_rows ∅ rows) k) !! farmacia r = Some p ∧ p ≤ q.
Proof.
  intros Hr Hk Hin Hq Hs.
  destruct (precio_run_bound rows k r q Hr Hk Hin Hq) as (p & Hp & Hle).
  exists p. split; [done | by apply Hle].
Qed.

Lemma X11_stored_price_witness :
  mk_obs 2 "Atida" 500 true
    ∈ [mk_obs 1 "Atida" 450 false; mk_obs 2 "Atida" 500 true; mk_obs 3 "Atida" 700 true]
  ∧ ∃ p, precios (obtener (procesar_rows ∅
             [mk_obs 1 "Atida" 450 false; mk_obs 2 "Atida" 500 true;
              mk_obs 3 "Atida" 700 true]) "NAME_paracetamol") !! "Atida" = Some p
         ∧ p ≤ 500.
Proof.
  assert (H : mk_obs 2 "Atida" 500 true
                ∈ [mk_obs 1 "Atida" 450 false; mk_obs 2 "Atida" 500 true;
                   mk_obs 3 "Atida" 700 true]) by (right; left).
  split; [exact H|].
  apply (X11_stored_price_below_in_stock_prices _ "NAME_paracetamol"
           (mk_obs 2 "Atida" 500 true) 500 H).
  - reflexivity.
  - vm_compute. repeat constructor.
  - reflexivity.
  - reflexivity.
Defined.

(** X12: when every row read for a match key and a pharmacy is in stock,
    the price and the stock flag kept for them do not depend on the order
    of the rows; for a known pharmacy the price is at most that of every
    such row, so it is the lowest one. *)
Theorem X12_in_stock_rows_order_independent
    (rows rows' : list row) (k f : string) :
  rows ≡ₚ rows' →
  (∀ r, r ∈ rows → clave r = k → farmacia r = f → en_stock r = true) →
  precios (obtener (procesar_rows ∅ rows) k) !! f
  = precios (obtener (procesar_rows ∅ rows') k) !! f
  ∧ stocks (obtener (procesar_rows ∅ rows) k) !! f
    = stocks (obtener (procesar_rows ∅ rows') k) !! f
  ∧ (f ∈ farmacias_conocidas →
     ∀ r q, r ∈ rows → clave r = k → farmacia r = f → precio r = Some q →
       ∃ p, precios (obtener (procesar_rows ∅ rows) k) !! f = Some p ∧ p ≤ q).
Proof.
  intros Hperm Hstock.
  assert (Hmin : ∀ l : list row,
            (∀ r, r ∈ l → clave r = k → farmacia r = f → en_stock r = true) →
            f ∈ farmacias_conocidas →
            ∀ r q, r ∈ l → clave r = k → farmacia r = f → precio r = Some q →
              ∃ p, precios (obtener (procesar_rows ∅ l) k) !! f = Some p ∧ p ≤ q).
  { intros l Hl Hin r q Hr Hk Hf Hq. subst f.
    destruct (precio_run_bound l k r q Hr Hk Hin Hq) as (p & Hp & Hle).
    exists p. split; [done|]. apply Hle. by apply Hl. }
  assert (Hstock' : ∀ r, r ∈ rows' → clave r = k → farmacia r = f →
                         en_stock r = true).
  { intros r Hr. apply Hstock. by rewrite Hperm. }
  assert (Hnone : ∀ l l' : list row, l ≡ₚ l' →
            entrada (procesar_rows ∅ l) k f = (None, None, None) →
            entrada (procesar_rows ∅ l') k f = (None, None, None)).
  { intros l l' Hp Hn.
    destruct (entrada_run l' k f)
      as [Hn'|(r & p & Hr & Hk & Hf & Hin & Hq & _)]; [done|].
    subst f. rewrite <- Hp in Hr.
    destruct (precio_run_bound l k r p Hr Hk Hin Hq) as (p0 & Hp0 & _).
    unfold entrada in Hn. injection Hn as Hn _ _. congruence. }
  assert (Hpair : precios (obtener (procesar_rows ∅ rows) k) !! f
                  = precios (obtener (procesar_rows ∅ rows') k) !! f
                  ∧ stocks (obtener (procesar_rows ∅ rows) k) !! f
                    = stocks (obtener (procesar_rows ∅ rows') k) !! f).
  { destruct (entrada_run rows k f)
      as [Hn|(r & p & Hr & Hk & Hf & Hin & Hq & Hent)].
    - pose proof (Hnone _ _ Hperm Hn) as Hn'.
      unfold entrada in Hn, Hn'. injection Hn as Hp _ Hs.
      injection Hn' as Hp' _ Hs'. by rewrite Hp, Hp', Hs, Hs'.
    - destruct (entrada_run rows' k f)
        as [Hn'|(r' & p' & Hr' & Hk' & Hf' & _ & Hq' & Hent')].
      + symmetry in Hperm. pose proof (Hnone _ _ Hperm Hn') as Hn.
        rewrite Hn in Hent. done.
      + unfold entrada in Hent, Hent'.
        injection Hent as Hp _ Hs. injection Hent' as Hp' _ Hs'.
        assert (Hr1 : r' ∈ rows) by (by rewrite Hperm).
        assert (Hr2 : r ∈ rows') by (by rewrite <- Hperm).
        destruct (Hmin rows Hstock Hin r' p' Hr1 Hk' Hf' Hq') as (a & Ha & Hle).
        destruct (Hmin rows' Hstock' Hin r p Hr2 Hk Hf Hq) as (b & Hb & Hle').
        assert (p = p') as <- by (simplify_eq; lia).
        rewrite Hp, Hp', Hs, Hs'.
        by rewrite (Hstock r Hr Hk Hf), (Hstock r' Hr1 Hk' Hf'). }
  destruct Hpair as [H1 H2]. split_and!; [done | done |].
  intros Hin. by apply Hmin.
Qed.

Lemma X12_in_stock_rows_witness :
  [mk_obs 1 "Atida" 500 true; mk_obs 2 "Atida" 450 true]
    ≡ₚ [mk_obs 2 "Atida" 450 true; mk_obs 1 "Atida" 500 true]
  ∧ precios (obtener (procesar_rows ∅
               [mk_obs 1 "Atida" 500 true; mk_obs 2 "Atida" 450 true])
               "NAME_paracetamol") !! "Atida"
    = precios (obtener (procesar_rows ∅
                 [mk_obs 2 "Atida" 450 true; mk_obs 1 "Atida" 500 true])
                 "NAME_paracetamol") !! "Atida".
Proof.
  split; [apply Permutation_swap|].
  apply (X12_in_stock_rows_order_independent
           [mk_obs 1 "Atida" 500 true; mk_obs 2 "Atida" 450 true]
           [mk_obs 2 "Atida" 450 true; mk_obs 1 "Atida" 500 true]
           "NAME_paracetamol" "Atida").
  - apply Permutation_swap.
  - intros r Hr _ _.
    apply elem_of_cons in Hr as [->|Hr]; [reflexivity|].
    apply elem_of_cons in Hr as [->|Hr]; [reflexivity|].
    by apply elem_of_nil in Hr.
Defined.

(** X13: once the entry kept for a match key and a pharmacy is in stock,
    it stays in stock whatever rows follow. *)
Theorem X13_in_stock_entry_stays_in_stock (l1 l2 : list row) (k f : string) :
  stocks (obtener (procesar_rows ∅ l1) k) !! f = Some true →
  stocks (obtener (procesar_rows ∅ (l1 ++ l2)) k) !! f = Some true.
Proof.
  intros Hs. rewrite procesar_rows_app, obtener_procesar_rows.
  destruct (entrada_run l1 k f) as [Hn|(r & p & _ & _ & _ & _ & _ & Hent)].
  - unfold entrada in Hn. injection Hn as _ _ Hn. congruence.
  - unfold entrada in Hent. injection Hent as Hp _ _.
    by apply (en_stock_fold _ _ _ p).
Qed.

Lemma X13_in_stock_entry_witness :
  stocks (obtener (procesar_rows ∅ [mk_obs 1 "Atida" 500 true])
            "NAME_paracetamol") !! "Atida" = Some true
  ∧ stocks (obtener (procesar_rows ∅
              ([mk_obs 1 "Atida" 500 true] ++ [mk_obs 2 "Atida" 450 false]))
              "NAME_paracetamol") !! "Atida" = Some true.
Proof.
  assert (H : stocks (obtener (procesar_rows ∅ [mk_obs 1 "Atida" 500 true])
                        "NAME_paracetamol") !! "Atida" = Some true)
    by (vm_compute; reflexivity).
  split; [exact H|].
  exact (X13_in_stock_entry_stays_in_stock _ [mk_obs 2 "Atida" 450 false] _ _ H).
Defined.

(** ** The paged driver for any page size and any total *)

Section Paginas2.

Implicit Types (fuente : list row) (st : estado).

Lemma plan_exacto fuel n total offset :
  (0 < n)%nat → (total - offset ≤ fuel)%nat →
  plan fuel n total offset
  = replicate ((total - offset) / n) n
    ++ (if ((total - offset) mod n =? 0)%nat then []
        else [((total - offset) mod n)%nat]).
Proof.
  intros Hn. revert offset. induction fuel as [|fuel IH]; intros offset Hfuel.
  - simpl. replace (total - offset)%nat with 0%nat by lia.
    rewrite Nat.Div0.div_0_l, Nat.Div0.mod_0_l.
    by destruct (offset <? total)%nat.
  - simpl. destruct (Nat.ltb_spec offset total) as [Hlt|Hge].
    + rewrite IH by lia.
      destruct (Nat.le_gt_cases n (total - offset)) as [Hle|Hgt].
      * rewrite Nat.min_l by done.
        assert (Hd : ((total - offset) / n
                      = S ((total - (offset + n)) / n))%nat).
        { replace (total - offset)%nat
            with ((total - (offset + n)) + 1 * n)%nat by lia.
          rewrite Nat.div_add by lia. lia. }
        assert (Hm : ((total - offset) mod n
                      = (total - (offset + n)) mod n)%nat).
        { replace (total - offset)%nat
            with ((total - (offset + n)) + 1 * n)%nat by lia.
          by rewrite Nat.Div0.mod_add. }
        by rewrite Hd, Hm.
      * rewrite Nat.min_r by lia.
        replace (total - (offset + n))%nat with 0%nat by lia.
        rewrite Nat.Div0.div_0_l, Nat.Div0.mod_0_l.
        rewrite Nat.div_small, Nat.mod_small by done. simpl.
        destruct (Nat.eqb_spec (total - offset) 0); [lia | done].
    + replace (total - offset)%nat with 0%nat by lia.
      by rewrite Nat.Div0.div_0_l, Nat.Div0.mod_0_l.
Qed.

(** Whatever [total_rows] says, the loop aggregates a prefix of the
    source that reaches at least the row [total_rows] and stops less than
    one page after it. *)
Lemma bucle_prefijo fuel fuente n total offset st :
  (0 < n)%nat → (total - offset ≤ fuel)%nat → (offset < total + n)%nat →
  ∃ m st',
    bucle fuel fuente n total offset st = Some st'
    ∧ grupos st' = procesar_rows (grupos st) (take m (drop offset fuente))
    ∧ procesados st' = (procesados st + length (take m (drop offset fuente)))%nat
    ∧ (total ≤ offset + m < total + n)%nat.
Proof.
  intros Hn. revert offset st.
  induction fuel as [|fuel IH]; intros offset st Hfuel Hoff; simpl.
  - destruct (Nat.ltb_spec offset total); [lia|].
    exists 0%nat, st. rewrite take_0. simpl. split_and!; try done; lia.
  - destruct (Nat.ltb_spec offset total) as [Hlt|Hge].
    + destruct (fetchall fuente n offset) as [|r rows] eqn:Hrows.
      * exists (total - offset)%nat. eexists. split; [done|]. simpl.
        assert (Hdrop : drop offset fuente = []).
        { unfold fetchall in Hrows. destruct (drop offset fuente); [done|].
          destruct n; [lia | done]. }
        rewrite Hdrop, take_nil. simpl. split_and!; try done; lia.
      * destruct (IH (offset + n)%nat
                    {| grupos := procesar_rows (grupos st) (r :: rows);
                       procesados := (procesados st + length (r :: rows))%nat;
                       paginas := paginas st ++ [length (r :: rows)] |})
          as (m & st' & Hb & Hg & Hp & Hm); [lia | lia |].
        exists (n + m)%nat, st'. split; [exact Hb|].
        simpl in Hg, Hp. rewrite <- take_take_drop, drop_drop.
        fold (fetchall fuente n offset). rewrite Hrows.
        split_and!.
        -- by rewrite procesar_rows_app.
        -- rewrite length_app. simpl. lia.
        -- lia.
        -- lia.
    + exists 0%nat, st. rewrite take_0. simpl. split_and!; try done; lia.
Qed.

(** The loop ends for every page size, the counter [procesados] is the
    number of rows fetched, and neither it nor the number of fetches goes
    beyond what the source and [total_rows] allow. *)
Lemma bucle_contadores fuel fuente n total offset st :
  (total - offset ≤ fuel)%nat →
  ∃ st' pags,
    bucle fuel fuente n total offset st = Some st'
    ∧ paginas st' = paginas st ++ pags
    ∧ procesados st' = (procesados st + sum_list pags)%nat
    ∧ (sum_list pags ≤ length fuente - offset)%nat
    ∧ (length pags ≤ total - offset)%nat.
Proof.
  revert offset st. induction fuel as [|fuel IH]; intros offset st Hfuel; simpl.
  - destruct (Nat.ltb_spec offset total); [lia|].
    exists st, []. rewrite app_nil_r. simpl. split_and!; try done; lia.
  - destruct (Nat.ltb_spec offset total) as [Hlt|Hge].
    + pose proof (fetchall_length fuente n offset) as Hlen.
      destruct (fetchall fuente n offset) as [|r rows] eqn:Hrows.
      * eexists. exists [0%nat]. split; [done|]. simpl. split_and!; try done; lia.
      * assert (n ≠ 0)%nat.
        { intros ->. unfold fetchall in Hrows. by rewrite take_0 in Hrows. }
        destruct (IH (offset + n)%nat
                    {| grupos := procesar_rows (grupos st) (r :: rows);
                       procesados := (procesados st + length (r :: rows))%nat;
                       paginas := paginas st ++ [length (r :: rows)] |})
          as (st' & pags & Hb & Hpag & Hp & Hsum & Hnum); [lia|].
        exists st', (length (r :: rows) :: pags). split; [exact Hb|].
        simpl in Hpag, Hp, Hlen |- *. split_and!.
        -- by rewrite Hpag, <- app_assoc.
        -- lia.
        -- lia.
        -- lia.
    + exists st, []. rewrite app_nil_r. simpl. split_and!; try done; lia.
Qed.

End Paginas2.

(** X14: for every positive page size, paging over a source whose row
    count is [total_rows] aggregates exactly the rows of the source, in
    order; the pages fetched are all full except possibly the last, which
    holds the remainder. *)
Theorem X14_paging_any_page_size (n : nat) (fuente : list row) :
  (0 < n)%nat →
  paginar n (length fuente) fuente
  = Some {| grupos := procesar_rows ∅ fuente;
            procesados := length fuente;
            paginas := replicate (length fuente / n) n
                       ++ (if (length fuente mod n =? 0)%nat then []
                           else [(length fuente mod n)%nat]) |}.
Proof.
  intros Hn. rewrite paginar_exacto by done. do 2 f_equal.
  rewrite plan_exacto by (done || lia). by rewrite Nat.sub_0_r.
Qed.

Lemma X14_paging_any_page_size_witness :
  (0 < 7)%nat
  ∧ paginar 7 (length fuente_250) fuente_250
    = Some {| grupos := procesar_rows ∅ fuente_250;
              procesados := length fuente_250;
              paginas := replicate (length fuente_250 / 7)%nat 7%nat
                         ++ (if (length fuente_250 mod 7 =? 0)%nat then []
                             else [(length fuente_250 mod 7)%nat]) |}.
Proof.
  split; [lia|]. apply (X14_paging_any_page_size 7 fuente_250). lia.
Defined.

(** X15: with a total that is not the number of rows, the loop still ends
    and aggregates a prefix of the source: all of the first [total_rows]
    rows, and fewer than one page of rows beyond them.  When the total is
    at least the number of rows, every row is aggregated. *)
Theorem X15_stale_total (n total : nat) (fuente : list row) :
  (0 < n)%nat →
  ∃ m st,
    paginar n total fuente = Some st
    ∧ grupos st = procesar_rows ∅ (take m fuente)
    ∧ procesados st = length (take m fuente)
    ∧ (total ≤ m < total + n)%nat
    ∧ ((length fuente ≤ total)%nat →
       grupos st = procesar_rows ∅ fuente ∧ procesados st = length fuente).
Proof.
  intros Hn. unfold paginar.
  destruct (bucle_prefijo total fuente n total 0 estado_inicial)
    as (m & st & Hb & Hg & Hp & Hm); [done | lia | lia |].
  exists m, st. rewrite drop_0 in Hg, Hp. simpl in Hg, Hp.
  split_and!; try done; try lia.
  intros Hlen. rewrite take_ge in Hg, Hp by lia. done.
Qed.

Lemma X15_stale_total_witness :
  (0 < 100)%nat
  ∧ ∃ m st,
      paginar 100 300 fuente_250 = Some st
      ∧ grupos st = procesar_rows ∅ (take m fuente_250)
      ∧ procesados st = length (take m fuente_250)
      ∧ (300 ≤ m < 300 + 100)%nat
      ∧ ((length fuente_250 ≤ 300)%nat →
         grupos st = procesar_rows ∅ fuente_250
         ∧ procesados st = length fuente_250).
Proof.
  split; [lia|]. apply (X15_stale_total 100 300 fuente_250). lia.
Defined.

(** X16: for every page size, zero included, and every total, the loop
    ends; its counter [procesados] is the number of rows fetched, which is
    never more than the source holds, and it runs at most [total_rows]
    queries. *)
Theorem X16_loop_counters (n total : nat) (fuente : list row) :
  ∃ st,
    paginar n total fuente = Some st
    ∧ procesados st = sum_list (paginas st)
    ∧ (procesados st ≤ length fuente)%nat
    ∧ (length (paginas st) ≤ total)%nat.
Proof.
  unfold paginar.
  destruct (bucle_contadores total fuente n total 0 estado_inicial)
    as (st & pags & Hb & Hpag & Hp & Hsum & Hnum); [lia|].
  exists st. simpl in Hpag, Hp. rewrite Hpag, Hp. split_and!; [done | done | lia | lia].
Qed.

(** ** The sorted table *)

Section Orden.

Lemma Ahorro_EUR_nonneg (datos : grupo) : 0 ≤ Ahorro_EUR (hacer_fila datos).
Proof.
  unfold hacer_fila. destruct (precios_validos datos) as [|p ps]; simpl; [lia|].
  destruct (py_min_spec ps p) as [_ Hmin].
  destruct (py_max_spec ps p) as [_ Hmax].
  pose proof (Hmin p ltac:(by left)). pose proof (Hmax p ltac:(by left)). lia.
Qed.

Lemma antes_total : Total antes.
Proof. intros x y. unfold antes. lia. Qed.

Lemma antes_trans : Transitive antes.
Proof. intros x y z. unfold antes. lia. Qed.

Lemma StronglySorted_weaken {A} (R R' : relation A) (P : A → Prop) (l : list A) :
  (∀ x y, P x → P y → R x y → R' x y) →
  Forall P l → StronglySorted R l → StronglySorted R' l.
Proof.
  intros HR HP. induction 1 as [|x l Hl IH Hx]; [constructor|].
  inversion HP as [|? ? Px Pl]; subst. constructor; [by apply IH|].
  rewrite Forall_forall in Hx, Pl |- *. intros y Hy.
  apply HR; [done | by apply Pl | by apply Hx].
Qed.

Lemma antes_Ahorro (x y : fila) :
  0 ≤ Ahorro_EUR x → 0 ≤ Ahorro_EUR y → antes x y → Ahorro_EUR y ≤ Ahorro_EUR x.
Proof.
  unfold antes, clave_orden.
  destruct (Z.eqb_spec (Ahorro_EUR x) 0), (Z.eqb_spec (Ahorro_EUR y) 0); lia.
Qed.

End Orden.

(** X17: the table handed to the writer is in non-increasing order of
    savings, no row has negative savings, and its length is the number of
    groups; the rows without any valid price, whose savings are 0, come
    after every row with positive savings. *)
Theorem X17_table_sorted_by_savings (grupos : gmap string grupo) :
  StronglySorted (λ x y, Ahorro_EUR y ≤ Ahorro_EUR x) (tabla_final grupos)
  ∧ Forall (λ x, 0 ≤ Ahorro_EUR x) (tabla_final grupos)
  ∧ length (tabla_final grupos) = size grupos.
Proof.
  assert (Hpos : Forall (λ x, 0 ≤ Ahorro_EUR x) (tabla_final grupos)).
  { unfold tabla_final. rewrite merge_sort_Permutation.
    unfold tabla_sin_ordenar. rewrite Forall_forall. intros x Hx.
    apply list_elem_of_fmap in Hx as (kv & -> & _). apply Ahorro_EUR_nonneg. }
  split_and!; [| done |].
  - apply (StronglySorted_weaken antes _ (λ x, 0 ≤ Ahorro_EUR x)); [| done |].
    + intros x y. apply antes_Ahorro.
    + unfold tabla_final.
      apply (@StronglySorted_merge_sort _ antes _ antes_trans antes_total).
  - unfold tabla_final. rewrite merge_sort_Permutation.
    unfold tabla_sin_ordenar. by rewrite length_map, length_map_to_list.
Qed.

(** ** The pandas variant: duplicates, statistics, general information *)

Section Rapida2.

Implicit Types (df l : list row) (r : row) (k f : string)
               (vistos : list (string * string)).

Lemma elem_of_drop_duplicates vistos l r :
  r ∈ Rapida.drop_duplicates vistos l → r ∈ l ∧ Rapida.par r ∉ vistos.
Proof.
  revert vistos. induction l as [|r0 l IH]; intros vistos; simpl.
  - by intros ?%elem_of_nil.
  - case_bool_decide as Hv.
    + intros [Hin Hnv]%IH. split; [by right | done].
    + intros [->|Hin]%elem_of_cons.
      * split; [by left | done].
      * apply IH in Hin as [Hin Hnv]. split; [by right|].
        intros Hv'. apply Hnv. by right.
Qed.

Lemma NoDup_drop_duplicates vistos l :
  NoDup (map Rapida.par (Rapida.drop_duplicates vistos l)).
Proof.
  revert vistos. induction l as [|r0 l IH]; intros vistos; simpl; [constructor|].
  case_bool_decide as Hv; [apply IH|].
  simpl. constructor; [|apply IH].
  intros Hin. apply list_elem_of_fmap in Hin as (r & Hpar & Hr).
  apply elem_of_drop_duplicates in Hr as [_ Hnv]. apply Hnv.
  apply elem_of_cons. left. symmetry. exact Hpar.
Qed.

Lemma drop_duplicates_covers vistos l r :
  r ∈ l → Rapida.par r ∉ vistos →
  ∃ r', r' ∈ Rapida.drop_duplicates vistos l ∧ Rapida.par r' = Rapida.par r.
Proof.
  revert vistos. induction l as [|r0 l IH]; intros vistos Hr Hnv; simpl.
  - by apply elem_of_nil in Hr.
  - case_bool_decide as Hv.
    + apply elem_of_cons in Hr as [->|Hr]; [done|]. by apply IH.
    + destruct (decide (Rapida.par r = Rapida.par r0)) as [Heq|Hne].
      * exists r0. split; [by left | done].
      * apply elem_of_cons in Hr as [->|Hr]; [done|].
        destruct (IH ((clave r0, farmacia r0) :: vistos) Hr) as (r' & Hr' & Hp).
        -- intros [?|?]%elem_of_cons; [by apply Hne | done].
        -- exists r'. split; [by right | done].
Qed.

Lemma primera_de_drop_duplicates k l vistos :
  (∀ f, (k, f) ∉ vistos) →
  Rapida.primera_de k (Rapida.drop_duplicates vistos l) = Rapida.primera_de k l.
Proof.
  revert vistos. induction l as [|r0 l IH]; intros vistos Hk; simpl; [done|].
  case_bool_decide as Hv.
  - rewrite IH by done. case_bool_decide as Hk0; [|done].
    exfalso. apply (Hk (farmacia r0)). by rewrite <- Hk0.
  - simpl. case_bool_decide as Hk0; [done|]. apply IH.
    intros f [Heq|Hin]%elem_of_cons; [|by apply (Hk f)].
    injection Heq as Heq _. by apply Hk0.
Qed.

Lemma primera_de_sorted k l r :
  StronglySorted Rapida.orden l → Rapida.primera_de k l = Some r →
  r ∈ l ∧ clave r = k ∧ ∀ r', r' ∈ l → clave r' = k → Rapida.orden r r'.
Proof.
  induction 1 as [|r0 l Hl IH Hr0]; simpl; [done|].
  case_bool_decide as Hk.
  - intros [= ->]. split_and!; [by left | done |].
    intros r' [->|Hr']%elem_of_cons _.
    + destruct (total Rapida.orden r r); done.
    + rewrite Forall_forall in Hr0. by apply Hr0.
  - intros Hr. destruct (IH Hr) as (Hin & Hkr & Hmin).
    split_and!; [by right | done |].
    intros r' [->|Hr']%elem_of_cons Hr'k; [done | by apply Hmin].
Qed.

Lemma precios_fila_ext df df' k :
  (∀ f, Rapida.celda df k f = Rapida.celda df' k f) →
  Rapida.precios_fila df k = Rapida.precios_fila df' k.
Proof.
  intros H. unfold Rapida.precios_fila.
  apply list_omap_ext, Forall_Forall2_diag, Forall_forall.
  intros f _. by rewrite H.
Qed.

End Rapida2.

(** X18: [best_per_pharmacy] keeps rows of the frame, exactly one for
    each (match key, pharmacy) pair present in it; the pivots that follow
    never meet a duplicate entry. *)
Theorem X18_one_row_per_pair (df : list row) :
  NoDup (map Rapida.par (Rapida.best_per_pharmacy df))
  ∧ (∀ r, r ∈ Rapida.best_per_pharmacy df → r ∈ df)
  ∧ (∀ r, r ∈ df →
       ∃ r', r' ∈ Rapida.best_per_pharmacy df ∧ Rapida.par r' = Rapida.par r).
Proof.
  unfold Rapida.best_per_pharmacy, Rapida.sort_values. split_and!.
  - apply NoDup_drop_duplicates.
  - intros r [Hr _]%elem_of_drop_duplicates.
    by rewrite merge_sort_Permutation in Hr.
  - intros r Hr. apply drop_duplicates_covers; [|apply not_elem_of_nil].
    by rewrite merge_sort_Permutation.
Qed.

Lemma celda_mejor (df : list row) (k f : string) :
  match Rapida.celda df k f with
  | None => ∀ r, r ∈ df → Rapida.par r ≠ (k, f)
  | Some (p, s) =>
      (∃ r0, r0 ∈ df ∧ Rapida.par r0 = (k, f) ∧ precio r0 = p ∧ en_stock r0 = s)
      ∧ ∀ r, r ∈ df → Rapida.par r = (k, f) →
          (en_stock r = true → s = true)
          ∧ (en_stock r = s → Rapida.precio_antes p (precio r) = true)
  end.
Proof.
  unfold Rapida.celda.
  destruct (Rapida.primera k f (Rapida.best_per_pharmacy df)) as [r0|] eqn:Hr0.
  - simpl. destruct (mejor_es_minimo df k f r0 Hr0) as (Hin & Hkf & Hmin).
    split; [by exists r0|]. intros r Hr Hpar.
    pose proof (Hmin r Hr Hpar) as Hord.
    unfold Rapida.orden, Rapida.ordenb in Hord.
    destruct (en_stock r0), (en_stock r); try done; by split.
  - simpl. intros r Hr.
    unfold Rapida.best_per_pharmacy in Hr0.
    rewrite primera_drop_duplicates in Hr0.
    rewrite bool_decide_eq_false_2 in Hr0 by apply not_elem_of_nil.
    apply (primera_None _ _ _ Hr0).
    unfold Rapida.sort_values. by rewrite merge_sort_Permutation.
Qed.

(** X19: the cell the pandas variant keeps for a match key and a pharmacy
    is empty only when the frame has no row for them; otherwise it is the
    price and stock flag of one of their rows, it is in stock as soon as
    one of their rows is, and among their rows of its own stock status its
    price is the lowest, a missing price counting as the highest. *)
Theorem X19_cell_is_best_by_stock_then_price (df : list row) (k f : string) :
  match Rapida.celda df k f with
  | None => ∀ r, r ∈ df → Rapida.par r ≠ (k, f)
  | Some (p, s) =>
      (∃ r0, r0 ∈ df ∧ Rapida.par r0 = (k, f) ∧ precio r0 = p ∧ en_stock r0 = s)
      ∧ ∀ r, r ∈ df → Rapida.par r = (k, f) →
          (en_stock r = true → s = true)
          ∧ (en_stock r = s → Rapida.precio_antes p (precio r) = true)
  end.
Proof. apply celda_mejor. Qed.

(** X20: in the pandas variant the price cell and the stock cell of every
    pharmacy and the price statistics (minimum, maximum, savings) of a
    match key do not depend on the order of the rows of the frame.  The
    URL cell is left out: among rows that tie on stock and price it is the
    URL of the one that comes first. *)
Theorem X20_statistics_order_independent (df df' : list row) (k : string) :
  df ≡ₚ df' →
  (∀ f, Rapida.celda df k f = Rapida.celda df' k f)
  ∧ Rapida.Precio_Min df k = Rapida.Precio_Min df' k
  ∧ Rapida.Precio_Max df k = Rapida.Precio_Max df' k
  ∧ Rapida.Ahorro_EUR df k = Rapida.Ahorro_EUR df' k.
Proof.
  intros Hperm.
  assert (Hc : ∀ f, Rapida.celda df k f = Rapida.celda df' k f).
  { intros f. by apply celda_Permutation. }
  pose proof (precios_fila_ext df df' k Hc) as Hp.
  unfold Rapida.Ahorro_EUR, Rapida.Precio_Min, Rapida.Precio_Max.
  by rewrite Hp.
Qed.

Lemma X20_statistics_witness :
  [mk_obs 1 "Atida" 450 false; mk_obs 2 "Atida" 500 true]
    ≡ₚ [mk_obs 2 "Atida" 500 true; mk_obs 1 "Atida" 450 false]
  ∧ ∀ f, Rapida.celda [mk_obs 1 "Atida" 450 false; mk_obs 2 "Atida" 500 true]
                      "NAME_paracetamol" f
         = Rapida.celda [mk_obs 2 "Atida" 500 true; mk_obs 1 "Atida" 450 false]
                        "NAME_paracetamol" f.
Proof.
  split; [apply Permutation_swap|].
  apply (X20_statistics_order_independent
           [mk_obs 1 "Atida" 450 false; mk_obs 2 "Atida" 500 true]
           [mk_obs 2 "Atida" 500 true; mk_obs 1 "Atida" 450 false]
           "NAME_paracetamol").
  apply Permutation_swap.
Defined.

(** X21: in the pandas variant the minimum, the maximum and the savings of
    a match key run over the prices of the cells of all known pharmacies,
    in stock or not; with no price they are null, null and 0. *)
Theorem X21_statistics_over_all_prices (df : list row) (k : string) :
  (∀ p : Z,
      p ∈ Rapida.precios_fila df k
      ↔ ∃ f s, f ∈ farmacias_conocidas ∧ Rapida.celda df k f = Some (Some p, s))
  ∧ match Rapida.precios_fila df k with
    | [] =>
        Rapida.Precio_Min df k = None ∧ Rapida.Precio_Max df k = None
        ∧ Rapida.Ahorro_EUR df k = 0
    | p :: ps =>
        ∃ m M : Z,
          Rapida.Precio_Min df k = Some m ∧ Rapida.Precio_Max df k = Some M
          ∧ m ∈ p :: ps ∧ M ∈ p :: ps
          ∧ (∀ q, q ∈ p :: ps → m ≤ q ≤ M)
          ∧ Rapida.Ahorro_EUR df k = M - m
    end.
Proof.
  split.
  - intros p. unfold Rapida.precios_fila. rewrite list_elem_of_omap. split.
    + intros (f & Hf & Hc). exists f.
      destruct (Rapida.celda df k f) as [[p0 s]|]; [|done].
      simpl in Hc. subst p0. by exists s.
    + intros (f & s & Hf & Hc). exists f. split; [done|]. by rewrite Hc.
  - unfold Rapida.Ahorro_EUR, Rapida.Precio_Min, Rapida.Precio_Max.
    destruct (Rapida.precios_fila df k) as [|p ps]; [done|].
    destruct (py_min_spec ps p) as [Hmin_in Hmin].
    destruct (py_max_spec ps p) as [Hmax_in Hmax].
    exists (py_min p ps), (py_max p ps). split_and!; try done.
    intros q Hq. split; [by apply Hmin | by apply Hmax].
Qed.

(** X22: the product name and EAN the pandas variant shows for a match
    key are those of a row of that key that sorts no later than any other
    row of the key (in stock first, then cheapest), not those of the row
    with the longest name. *)
Theorem X22_general_info_is_best_row (df : list row) (k : string) :
  match Rapida.general_info df k with
  | None => ∀ r, r ∈ df → clave r ≠ k
  | Some (n, e) =>
      ∃ r, r ∈ df ∧ clave r = k ∧ nombre r = n
           ∧ e = (if is_valid_ean (ean r) then ean r else None)
           ∧ ∀ r', r' ∈ df → clave r' = k → Rapida.orden r r'
  end.
Proof.
  unfold Rapida.general_info, Rapida.best_per_pharmacy.
  rewrite primera_de_drop_duplicates by (intros f; apply not_elem_of_nil).
  destruct (Rapida.primera_de k (Rapida.sort_values df)) as [r|] eqn:Hr; simpl.
  - destruct (primera_de_sorted k (Rapida.sort_values df) r)
      as (Hin & Hk & Hmin); [| done |].
    { apply (@StronglySorted_merge_sort _ Rapida.orden _
               orden_trans orden_total). }
    unfold Rapida.sort_values in *.
    exists r. split_and!; try done.
    + by rewrite merge_sort_Permutation in Hin.
    + intros r' Hr'. apply Hmin. by rewrite merge_sort_Permutation.
  - intros r Hin Hk.
    assert (Hin' : r ∈ Rapida.sort_values df).
    { unfold Rapida.sort_values. by rewrite merge_sort_Permutation. }
    clear Hin. induction (Rapida.sort_values df) as [|r0 l IH]; simpl in *.
    + by apply elem_of_nil in Hin'.
    + case_bool_decide as Hk0; [done|].
      apply elem_of_cons in Hin' as [->|Hin']; [done | by apply IH].
Qed.

(** X23: the two consolidators agree on the price of a known pharmacy for
    a match key whenever all the rows read for that key and pharmacy are
    in stock: the price the paged variant keeps is the price of the cell
    of the pandas variant. *)
Theorem X23_variants_agree_when_in_stock (df : list row) (k f : string) :
  f ∈ farmacias_conocidas →
  (∀ r, r ∈ df → Rapida.par r = (k, f) → en_stock r = true) →
  precios (obtener (procesar_rows ∅ df) k) !! f
  = (c ← Rapida.celda df k f; c.1).
Proof.
  intros Hin Hstock.
  assert (Hbound : ∀ r q, r ∈ df → Rapida.par r = (k, f) → precio r = Some q →
            ∃ p, precios (obtener (procesar_rows ∅ df) k) !! f = Some p ∧ p ≤ q).
  { intros r q Hr Hpar Hq. pose proof (Hstock r Hr Hpar) as Hs.
    injection Hpar as Hk Hf. subst f.
    destruct (precio_run_bound df k r q Hr Hk Hin Hq) as (p & Hp & Hle).
    exists p. split; [done | by apply Hle]. }
  pose proof (celda_mejor df k f) as Hc.
  destruct (entrada_run df k f) as [Hn|(r & p & Hr & Hk & Hf & _ & Hq & Hent)].
  - unfold entrada in Hn. injection Hn as Hn _ _. rewrite Hn.
    destruct (Rapida.celda df k f) as [[[q|] s]|]; [|done..].
    destruct Hc as [(r0 & Hr0 & Hpar0 & Hq0 & _) _].
    destruct (Hbound r0 q Hr0 Hpar0 Hq0) as (p & Hp & _). congruence.
  - unfold entrada in Hent. injection Hent as Hp _ _. rewrite Hp.
    assert (Hpar : Rapida.par r = (k, f)) by (unfold Rapida.par; congruence).
    destruct (Rapida.celda df k f) as [[q s]|].
    + destruct Hc as [(r0 & Hr0 & Hpar0 & Hq0 & Hs0) Hbest].
      destruct (Hbest r Hr Hpar) as [Htrue Hprice].
      pose proof (Hstock r Hr Hpar) as Hs. specialize (Htrue Hs).
      rewrite Htrue in Hprice. specialize (Hprice Hs). rewrite Hq in Hprice. simpl.
      destruct q as [q|]; [|done]. simpl in Hprice. apply Z.leb_le in Hprice.
      destruct (Hbound r0 q Hr0 Hpar0 Hq0) as (p' & Hp' & Hle).
      assert (p' = p) by congruence. subst p'. f_equal. lia.
    + exfalso. by apply (Hc r Hr).
Qed.

Lemma X23_variants_agree_witness :
  "Atida" ∈ farmacias_conocidas
  ∧ precios (obtener (procesar_rows ∅
               [mk_obs 1 "Atida" 500 true; mk_obs 2 "Atida" 450 true])
               "NAME_paracetamol") !! "Atida"
    = (c ← Rapida.celda [mk_obs 1 "Atida" 500 true; mk_obs 2 "Atida" 450 true]
                        "NAME_paracetamol" "Atida"; c.1).
Proof.
  assert (H : "Atida" ∈ farmacias_conocidas) by (vm_compute; repeat constructor).
  split; [exact H|].
  apply (X23_variants_agree_when_in_stock
           [mk_obs 1 "Atida" 500 true; mk_obs 2 "Atida" 450 true]
           "NAME_paracetamol" "Atida" H).
  intros r Hr _.
  apply elem_of_cons in Hr as [->|Hr]; [reflexivity|].
  apply elem_of_cons in Hr as [->|Hr]; [reflexivity|].
  by apply elem_of_nil in Hr.
Defined.

(** ** The SQL variant against the Python variants *)

Example sql_match_key_ascii :
  Sql.match_key None "  Crema--X   50ML " = "NAME_crema x 50ml"
  ∧ Sql.match_key (Some "8412345678901") "Crema X" = "8412345678901"
  ∧ Sql.match_key (Some " 8412345678901") "Crema X" = "NAME_crema x".
Proof. split_and!; reflexivity. Qed.

(** On a name with an accent the two normalisations part: Python strips
    the accent, SQL turns the letter into a blank. *)
Example sql_match_key_accent :
  Sql.match_key None (String "C" (String "r" (String (ascii_of_N 232) "me")))
  = "NAME_cr me"
  ∧ (match_key_of None (String "C" (String "r" (String (ascii_of_N 232) "me")))).1
    = "NAME_creme".
Proof. split; reflexivity. Qed.

Section Sql2.

Local Abbreviation blanco := (" "%char).

Lemma isdecimal_isdigit (c : ascii) :
  Texto.isdecimal_ascii c = true → Texto.isdigit c = true.
Proof. destruct c as [[] [] [] [] [] [] [] []]; vm_compute; congruence. Qed.

(** On a lower-cased ASCII character the Python and the SQL steps agree
    on what is a word character and keep it; anything else is whitespace
    for Python and a blank for SQL. *)
Lemma paso_ascii (y : ascii) :
  (Texto.code y <? 128)%N = true →
  let c := Texto.lower y in
  Texto.nfkd_ascii y = [y]
  ∧ if palabra_char c
    then blanquear c = c ∧ Texto.isspace c = false
    else Texto.isspace (blanquear c) = true.
Proof. destruct y as [[] [] [] [] [] [] [] []]; vm_compute; intros; by split. Qed.

Lemma palabra_char_no_blanco (c : ascii) :
  palabra_char c = true →
  c ≠ blanco ∧ Sql.es_espacio c = false ∧ Texto.isspace c = false.
Proof. destruct c as [[] [] [] [] [] [] [] []]; vm_compute; intros; by split_and!. Qed.

(** [split] only looks at which characters are whitespace and at the
    others. *)
Lemma split_go_clases (l : list ascii) (cur : list ascii) :
  Forall (λ c, if palabra_char c
               then blanquear c = c ∧ Texto.isspace c = false
               else Texto.isspace (blanquear c) = true) l →
  Texto.split_go cur (map blanquear l)
  = Texto.split_go cur (map (λ c, if palabra_char c then c else blanco) l).
Proof.
  intros Hl. revert cur. induction Hl as [|c l Hc _ IH]; intros cur; [done|].
  simpl. destruct (palabra_char c) eqn:Hp.
  - destruct Hc as [-> ->]. apply IH.
  - rewrite Hc. change (Texto.isspace blanco) with true. simpl.
    by rewrite !IH.
Qed.

Lemma ltrim_ltrim (l : list ascii) : Sql.ltrim (Sql.ltrim l) = Sql.ltrim l.
Proof.
  induction l as [|c l IH]; [done|]. simpl.
  case_bool_decide as Hc; [done|]. simpl. by rewrite bool_decide_eq_false_2.
Qed.

Lemma rtrim_app (a b : list ascii) :
  Sql.rtrim (a ++ b)
  = match Sql.rtrim b with [] => Sql.rtrim a | t => a ++ t end.
Proof.
  induction a as [|c a IH]; simpl.
  - by destruct (Sql.rtrim b).
  - rewrite IH. destruct (Sql.rtrim b) as [|t0 t]; [done|].
    by destruct (a ++ t0 :: t) eqn:Heq; [destruct a|].
Qed.

Lemma rtrim_palabras (w : list ascii) :
  Forall (λ c, palabra_char c = true) w → Sql.rtrim w = w.
Proof.
  induction 1 as [|c w Hc _ IH]; [done|]. simpl. rewrite IH.
  destruct w; [|done].
  destruct (palabra_char_no_blanco c Hc) as (Hb & _).
  by rewrite bool_decide_eq_false_2.
Qed.

Lemma join_nil_words (ws : list (list ascii)) :
  Forall (λ w, w ≠ []) ws → Texto.join [blanco] ws = [] → ws = [].
Proof.
  destruct 1 as [|w ws Hw Hws]; [done|]. simpl.
  destruct ws as [|w2 ws]; [done|]. by destruct w.
Qed.

Lemma join_cons (w : list ascii) (ws : list (list ascii)) :
  Forall (λ w, w ≠ []) ws →
  Texto.join [blanco] (w :: ws)
  = match Texto.join [blanco] ws with
    | [] => w
    | t => w ++ blanco :: t
    end.
Proof.
  intros Hws. destruct ws as [|w2 ws]; [done|].
  change (Texto.join [blanco] (w :: w2 :: ws))
    with (w ++ blanco :: Texto.join [blanco] (w2 :: ws)).
  destruct (Texto.join [blanco] (w2 :: ws)) eqn:Hj; [|done].
  by apply join_nil_words in Hj.
Qed.

(** Joining by one blank the words [split] finds is collapsing the runs
    of blanks and trimming, on a string of word characters and blanks. *)
Lemma join_split_colapsar (m cur : list ascii) :
  Forall (λ c, palabra_char c = true ∨ c = blanco) m →
  Forall (λ c, palabra_char c = true) cur →
  Texto.join [blanco] (Texto.split_go cur m)
  = match cur with
    | [] => Sql.trim (Sql.colapsar m)
    | _ => Sql.rtrim (rev cur ++ Sql.colapsar m)
    end.
Proof.
  intros Hm. revert cur. induction Hm as [|c m Hc Hm IH]; intros cur Hcur.
  - simpl. destruct cur as [|c0 cur]; [done|]. rewrite app_nil_r.
    symmetry. apply rtrim_palabras. by apply Forall_rev.
  - assert (Hwords : Forall (λ w, w ≠ []) (Texto.split_go [] m)).
    { eapply Forall_impl.
      - apply (split_go_words m [] (λ _, True)); [constructor|].
        by apply Forall_forall.
      - by intros w [Hne _]. }
    destruct Hc as [Hc| ->].
    + destruct (palabra_char_no_blanco c Hc) as (Hb & Hs & Hp).
      simpl. rewrite Hp, Hs. rewrite IH by (by constructor).
      simpl. rewrite <- app_assoc. simpl.
      destruct cur as [|c0 cur]; [|done].
      unfold Sql.trim. cbn [Sql.ltrim rev app].
      by rewrite bool_decide_eq_false_2.
    + change (Texto.split_go cur (blanco :: m))
        with (match cur with
              | [] => Texto.split_go [] m
              | _ => rev cur :: Texto.split_go [] m
              end).
      change (Sql.colapsar (blanco :: m))
        with (blanco :: Sql.ltrim (Sql.colapsar m)).
      destruct cur as [|c0 cur].
      * rewrite IH by done. unfold Sql.trim. simpl. by rewrite ltrim_ltrim.
      * rewrite join_cons by apply Hwords. rewrite IH by constructor.
        rewrite rtrim_app. unfold Sql.trim. simpl.
        destruct (Sql.rtrim (Sql.ltrim (Sql.colapsar m))); [|done].
        symmetry. apply rtrim_palabras.
        change (rev cur ++ [c0]) with (rev (c0 :: cur)). by apply Forall_rev.
Qed.

End Sql2.

Section Sql3.

Lemma length_chars (e : string) : length (Texto.chars e) = String.length e.
Proof. induction e as [|c e IH]; [done|]. simpl. by rewrite IH. Qed.

Lemma strip_digits (d : list ascii) :
  Forall (λ c, Texto.isdigit c = true) d → Texto.strip d = d.
Proof.
  intros Hd. destruct d as [|c d]; [done|].
  pose proof (strip_padded [] (c :: d) []) as H.
  rewrite app_nil_r in H. simpl in H. apply H; [done | done | constructor..].
Qed.

Lemma sql_ean_valido_eq (ean : option string) :
  Sql.ean_valido ean
  = if is_valid_ean ean
       && match ean with
          | Some e => forallb Texto.isdecimal_ascii (Texto.chars e)
          | None => false
          end
    then ean else None.
Proof.
  destruct ean as [e|]; [|done]. cbn [Sql.ean_valido is_valid_ean].
  destruct (forallb Texto.isdecimal_ascii (Texto.chars e)) eqn:Hdec.
  - assert (Hd : Forall (λ c, Texto.isdigit c = true) (Texto.chars e)).
    { rewrite forallb_forall in Hdec. rewrite Forall_forall.
      intros c Hc. apply isdecimal_isdigit, Hdec. by apply list_elem_of_In. }
    assert (Hdig : forallb Texto.isdigit (Texto.chars e) = true).
    { rewrite forallb_forall in Hdec |- *. intros c Hc.
      by apply isdecimal_isdigit, Hdec. }
    rewrite strip_digits, length_chars by done.
    unfold Sql.solo_digitos, Texto.str_isdigit.
    rewrite Hdec, Hdig, andb_true_r. by destruct (Texto.chars e).
  - rewrite andb_false_r. unfold Sql.solo_digitos.
    destruct (Texto.chars e); [done|]. by rewrite Hdec.
Qed.

Lemma sql_nombre_clean (nombre : string) :
  Forall (λ c, (Texto.code c <? 128)%N = true) (Texto.chars nombre) →
  string_of_list_ascii (Sql.trim (Sql.colapsar (Sql.nombre_norm nombre)))
  = clean_name nombre.
Proof.
  intros Hascii. unfold clean_name. fold blanquear. f_equal.
  rewrite concat_singletons; cycle 1.
  { eapply Forall_impl; [exact Hascii|]. intros c Hc.
    by destruct (paso_ascii c Hc) as [? _]. }
  unfold Texto.split. rewrite split_go_clases; cycle 1.
  { rewrite Forall_forall. intros c Hc.
    apply list_elem_of_fmap in Hc as (y & -> & Hy).
    rewrite Forall_forall in Hascii.
    by destruct (paso_ascii y (Hascii y Hy)) as [_ ?]. }
  rewrite (join_split_colapsar _ []); [done | | constructor].
  rewrite Forall_forall. intros c Hc.
  apply list_elem_of_fmap in Hc as (y & -> & _).
  destruct (palabra_char y) eqn:Hy; [by left | by right].
Qed.

End Sql3.

(** X24: the SQL variant accepts an EAN exactly when the Python variants
    accept it and every one of its characters is an ASCII decimal digit; an
    EAN padded with whitespace, which Python accepts, is rejected by SQL,
    whose records then fall back to the name key. *)
Theorem X24_sql_ean_is_stricter (ean : option string) :
  Sql.ean_valido ean
  = if is_valid_ean ean
       && match ean with
          | Some e => forallb Texto.isdecimal_ascii (Texto.chars e)
          | None => false
          end
    then ean else None.
Proof. apply sql_ean_valido_eq. Qed.

(** X25: on a name of ASCII characters the SQL normalisation (lower-case,
    blank out what is not [a-z0-9], collapse, trim) gives the same string as
    [clean_name]; so the SQL match key is the Python match key whenever the
    two variants also agree on the validity of the EAN. *)
Theorem X25_sql_key_agrees_on_ascii (ean : option string) (nombre : string) :
  Forall (λ c, (Texto.code c <? 128)%N = true) (Texto.chars nombre) →
  (is_valid_ean ean = true → is_Some (Sql.ean_valido ean)) →
  string_of_list_ascii (Sql.trim (Sql.colapsar (Sql.nombre_norm nombre)))
  = clean_name nombre
  ∧ Sql.match_key ean nombre = (match_key_of ean nombre).1.
Proof.
  intros Hascii Hean. split; [by apply sql_nombre_clean|].
  unfold Sql.match_key, match_key_of.
  rewrite sql_ean_valido_eq in Hean |- *.
  destruct (is_valid_ean ean) eqn:Hv; simpl in *.
  - destruct ean as [e|]; [|done]. simpl.
    destruct (forallb Texto.isdecimal_ascii (Texto.chars e)); [done|].
    by destruct (Hean eq_refl).
  - by rewrite sql_nombre_clean.
Qed.

Lemma X25_sql_key_agrees_witness :
  Forall (λ c, (Texto.code c <? 128)%N = true) (Texto.chars "Crema-X  50ML")
  ∧ Sql.match_key (Some "abc123") "Crema-X  50ML"
    = (match_key_of (Some "abc123") "Crema-X  50ML").1.
Proof.
  assert (H : Forall (λ c, (Texto.code c <? 128)%N = true)
                (Texto.chars "Crema-X  50ML")) by repeat constructor.
  split; [exact H|].
  apply (X25_sql_key_agrees_on_ascii (Some "abc123") "Crema-X  50ML" H).
  intros Hv. discriminate Hv.
Defined.

(** ** Column letters *)

Example col_letter_examples :
  Excel.col_letter 0 = Some "A" ∧ Excel.col_letter 25 = Some "Z"
  ∧ Excel.col_letter 26 = Some "AA" ∧ Excel.col_letter 701 = Some "ZZ"
  ∧ Excel.col_letter 702 = Some "AAA".
Proof. split_and!; reflexivity. Qed.

Section Letras.

Lemma paso_acc (l : list ascii) (a : nat) :
  foldl Excel.paso a l
  = (a * 26 ^ length l + foldl Excel.paso 0 l)%nat.
Proof.
  revert a. induction l as [|c l IH]; intros a; simpl; [lia|].
  rewrite IH, (IH (Excel.paso 0 c)). unfold Excel.paso. lia.
Qed.

Lemma col_letter_go_spec (fuel idx : nat) (letter : string) :
  (idx ≤ fuel)%nat →
  ∃ s, Excel.col_letter_go fuel idx letter = Some s
       ∧ Excel.valor s
         = (idx * 26 ^ String.length letter + Excel.valor letter)%nat
       ∧ (Forall (λ c, (65 ≤ nat_of_ascii c ≤ 90)%nat) (Texto.chars letter) →
          Forall (λ c, (65 ≤ nat_of_ascii c ≤ 90)%nat) (Texto.chars s)).
Proof.
  revert idx letter. induction fuel as [|fuel IH]; intros idx letter Hfuel; simpl.
  - replace idx with 0%nat by lia. simpl. exists letter. split_and!; [done | lia | done].
  - destruct (Nat.ltb_spec 0 idx) as [Hpos|Hzero].
    + pose proof (Nat.div_mod_eq (idx - 1) 26) as Hdm.
      pose proof (Nat.mod_upper_bound (idx - 1) 26 ltac:(lia)) as Hr.
      destruct (IH ((idx - 1) / 26)%nat
                  (String (ascii_of_nat (65 + (idx - 1) mod 26)) letter))
        as (s & Hs & Hval & Hran); [lia|].
      exists s. split; [exact Hs|].
      assert (Hc : nat_of_ascii (ascii_of_nat (65 + (idx - 1) mod 26))
                   = (65 + (idx - 1) mod 26)%nat)
        by (apply nat_ascii_embedding; lia).
      split.
      * rewrite Hval. unfold Excel.valor.
        change (Texto.chars (String ?c letter)) with (c :: Texto.chars letter).
        change (foldl Excel.paso 0%nat (?c :: ?l))
          with (foldl Excel.paso (Excel.paso 0 c) l).
        rewrite (paso_acc (Texto.chars letter) (Excel.paso 0 _)).
        unfold Excel.paso at 1. rewrite Hc, length_chars.
        change (String.length (String ?c letter)) with (S (String.length letter)).
        rewrite Nat.pow_succ_r'.
        generalize (foldl Excel.paso 0%nat (Texto.chars letter)). intros v.
        generalize (26 ^ String.length letter)%nat. intros p.
        revert Hdm Hr. generalize ((idx - 1) / 26)%nat ((idx - 1) mod 26)%nat.
        intros q r Hdm Hr.
        assert (Hidx : idx = (26 * q + r + 1)%nat) by lia.
        rewrite Hidx. nia.
      * intros Hl. apply Hran.
        change (Texto.chars (String ?c letter)) with (c :: Texto.chars letter).
        constructor; [|done]. rewrite Hc. lia.
    + replace idx with 0%nat by lia. exists letter. split_and!; [done | simpl; lia | done].
Qed.

End Letras.

(** X26: [col_letter] ends for every column index and gives a non-empty
    name of capitals A-Z whose value in bijective base 26 is the index plus
    one; so different columns never get the same letters. *)
Theorem X26_col_letter_round_trip (n : nat) :
  ∃ s, Excel.col_letter n = Some s
       ∧ s ≠ ""
       ∧ Forall (λ c, (65 ≤ nat_of_ascii c ≤ 90)%nat) (Texto.chars s)
       ∧ Excel.valor s = (n + 1)%nat
       ∧ ∀ m, Excel.col_letter m = Some s → m = n.
Proof.
  unfold Excel.col_letter.
  destruct (col_letter_go_spec (n + 1) (n + 1) "") as (s & Hs & Hval & Hran); [lia|].
  exists s. change (String.length "") with 0%nat in Hval.
  change (Excel.valor "") with 0%nat in Hval. rewrite Nat.pow_0_r in Hval.
  split_and!.
  - done.
  - intros ->. change (Excel.valor "") with 0%nat in Hval. lia.
  - apply Hran. constructor.
  - lia.
  - intros m Hm.
    destruct (col_letter_go_spec (m + 1) (m + 1) "") as (s' & Hs' & Hval' & _); [lia|].
    change (String.length "") with 0%nat in Hval'.
    change (Excel.valor "") with 0%nat in Hval'. rewrite Nat.pow_0_r in Hval'.
    assert (s' = s) by congruence. subst s'. lia.
Qed.

(** * The rows that reach the consolidator *)

(** ** What the scrapers store *)

Section Almacen.

Implicit Types (st : Db.corrida) (d : Db.datos) (hits : list Db.datos)
               (b : Db.base) (p : Db.Producto) (ps : list Db.Producto).

Variables (farmacia_nombre : string) (hoy limit : Z).

Local Abbreviation guardar_hit := (Db.guardar_hit farmacia_nombre hoy).
Local Abbreviation guardar_hits := (Db.guardar_hits farmacia_nombre hoy limit).
Local Abbreviation base_tras := (Db.base_tras farmacia_nombre hoy limit).









(** What holds of every product stored, and is kept by an update, holds
    of every product after the page. *)
Lemma Forall_actualizar_primero (P : Db.Producto → Prop) d ps :
  (∀ p, P p → P (Db.poner_datos d p)) →
  Forall P ps → Forall P (Db.actualizar_primero d ps).
Proof.
  intros Hpon. induction 1 as [|p ps Hp Hps IH]; simpl; [done|].
  case_bool_decide; constructor; auto.
Qed.

Lemma guardar_hit_productos (P : Db.Producto → Prop) st d :
  (∀ p, P p → P (Db.poner_datos d p)) →
  (Db.descartado d = false →
   ∀ i, P {| Db.prod_id := i; Db.prod_nombre := Db.d_nombre d;
             Db.prod_url := Db.d_url d; Db.prod_farmacia := farmacia_nombre;
             Db.prod_ean := Some (Db.d_sku d) |}) →
  Forall P (Db.productos (Db.db st)) →
  Forall P (Db.productos (Db.db (guardar_hit st d))).
Proof.
  intros Hpon Hnew Hst. unfold Db.guardar_hit.
  destruct (Db.descartado d); [done|].
  destruct (Db.d_precio d) as [precio|]; [|done].
  destruct (Db.buscar (Db.d_url d) (Db.productos (Db.db st))) as [p|]; simpl.
  - by apply Forall_actualizar_primero.
  - apply Forall_app. split; [done|]. constructor; [by apply Hnew | done].
Qed.

Lemma guardar_hits_productos (P : Db.Producto → Prop) hits st :
  (∀ d p, P p → P (Db.poner_datos d p)) →
  (∀ d, Db.descartado d = false →
   ∀ i, P {| Db.prod_id := i; Db.prod_nombre := Db.d_nombre d;
             Db.prod_url := Db.d_url d; Db.prod_farmacia := farmacia_nombre;
             Db.prod_ean := Some (Db.d_sku d) |}) →
  Forall P (Db.productos (Db.db st)) →
  Forall P (Db.productos (base_tras st hits)).
Proof.
  intros Hpon Hnew. unfold Db.base_tras. revert st.
  induction hits as [|d hits IH]; intros st Hst; simpl; [done|].
  destruct ((0 <? limit) && (limit <=? Db.exitos st)); [done|].
  apply IH. apply guardar_hit_productos; auto.
Qed.

(** No product is stored without a URL. *)
Lemma productos_con_url hits st :
  Forall (λ p, Db.prod_url p ≠ "") (Db.productos (Db.db st)) →
  Forall (λ p, Db.prod_url p ≠ "") (Db.productos (base_tras st hits)).
Proof.
  apply guardar_hits_productos.
  - by intros d p Hp.
  - intros d Hd i. simpl. apply orb_false_elim in Hd as [Hu _].
    by apply bool_decide_eq_false in Hu.
Qed.

(** Every product is stored under the name of its scraper. *)
Lemma productos_conocidos hits st :
  farmacia_nombre ∈ farmacias_conocidas →
  Forall (λ p, Db.prod_farmacia p ∈ farmacias_conocidas) (Db.productos (Db.db st)) →
  Forall (λ p, Db.prod_farmacia p ∈ farmacias_conocidas)
    (Db.productos (base_tras st hits)).
Proof.
  intros Hf. apply guardar_hits_productos.
  - by intros d p Hp.
  - by intros d _ i.
Qed.

End Almacen.

(** ** What the query reads *)

Section Consulta.

Implicit Types (b : Db.base) (r : row).

(** A row of the query is a product of the database with a price. *)
Lemma elem_of_consulta b r :
  r ∈ consulta b →
  ∃ p, p ∈ Db.productos b
       ∧ is_Some (precio r)
       ∧ url r = Db.prod_url p ∧ farmacia r = Db.prod_farmacia p
       ∧ nombre r = Db.prod_nombre p ∧ ean r = Db.prod_ean p.
Proof.
  unfold consulta. rewrite list_elem_of_omap. intros (p & Hp & Hr).
  rewrite merge_sort_Permutation in Hp. exists p. split; [done|].
  unfold unir in Hr.
  destruct (ultimo_precio (Db.precios b) (Db.prod_id p)) as [pr|]; [|done].
  simpl in Hr. injection Hr as <-. simpl. by split_and!; [eexists|..].
Qed.

(** The rows read from a database whose products have a URL and a known
    pharmacy are rows with a price, a URL and a known pharmacy. *)
Lemma consulta_almacenable b :
  Forall (λ p, Db.prod_url p ≠ "") (Db.productos b) →
  Forall (λ p, Db.prod_farmacia p ∈ farmacias_conocidas) (Db.productos b) →
  forallb almacenable (consulta b) = true.
Proof.
  intros Hu Hf. apply forallb_forall. intros r Hr%list_elem_of_In.
  destruct (elem_of_consulta b r Hr) as (p & Hp & Hprecio & Hurl & Hfar & _).
  rewrite Forall_forall in Hu, Hf. unfold almacenable.
  rewrite !andb_true_iff, negb_true_iff, !bool_decide_eq_true, bool_decide_eq_false.
  split_and!; [done | rewrite Hurl; by apply Hu | rewrite Hfar; by apply Hf].
Qed.

(** After any page stored by a known scraper on an empty database, the
    consolidator reads only such rows. *)
Lemma consulta_tras_almacenable (farmacia_nombre : string) (hoy limit : Z)
    (hits : list Db.datos) :
  farmacia_nombre ∈ farmacias_conocidas →
  forallb almacenable
    (consulta (Db.base_tras farmacia_nombre hoy limit Db.corrida_inicial hits))
  = true.
Proof.
  intros Hf. apply consulta_almacenable.
  - by apply productos_con_url.
  - by apply productos_conocidos.
Qed.

End Consulta.


(** The page of the sample hits on an empty database: the two hits with
    a price and a URL are stored, and the aggregator has their two groups
    and no group for the EAN of the two hits that are skipped. *)
Example pagina_atida :
  consulta (Db.base_tras "Atida" 20260101 0 Db.corrida_inicial
              [hit_paracetamol; hit_sin_precio; hit_sin_url; hit_ibuprofeno])
  = [ {| p_id := 1; farmacia := "Atida"; nombre := "Paracetamol 1g";
         url := "https://www.atida.com/paracetamol-1g";
         ean := Some "8470001234567"; precio := Some 450; en_stock := false |};
      {| p_id := 2; farmacia := "Atida"; nombre := "Ibuprofeno 600";
         url := "https://www.atida.com/ibuprofeno-600";
         ean := Some ""; precio := Some 520; en_stock := true |} ]
  ∧ entrada (agregar (Db.base_tras "Atida" 20260101 0 Db.corrida_inicial
                        [hit_paracetamol; hit_sin_precio; hit_sin_url;
                         hit_ibuprofeno]))
            "8470001234567" "Atida"
    = (Some 450, Some "https://www.atida.com/paracetamol-1g", Some false)
  ∧ entrada (agregar (Db.base_tras "Atida" 20260101 0 Db.corrida_inicial
                        [hit_paracetamol; hit_sin_precio; hit_sin_url;
                         hit_ibuprofeno]))
            "NAME_ibuprofeno 600" "Atida"
    = (Some 520, Some "https://www.atida.com/ibuprofeno-600", Some true)
  ∧ agregar (Db.base_tras "Atida" 20260101 0 Db.corrida_inicial
               [hit_paracetamol; hit_sin_precio; hit_sin_url; hit_ibuprofeno])
      !! "8412345678901" = None.
Proof. split_and!; vm_compute; reflexivity. Qed.


(** ** The table over the stored rows *)

Section TablaAlmacenada.

Implicit Types (rows : list row) (k : string) (datos : grupo).




End TablaAlmacenada.


